(** * LMS API: a shallow embedding of [main.py] and [schemas.py]

    The development follows the layering of the program: BSON-like values and
    documents, the [ObjectId] text form, the [serialize] helper, the
    operations of the document store the handlers call, the request models,
    and the handlers themselves, written once as programs over the store
    operations and interpreted either sequentially or under an interleaving
    of two requests. *)

From Stdlib Require Import ZArith NArith Ascii String List Lia Permutation Sorted.
From stdpp Require Import base option list strings gmap fin_maps pretty.

Local Open Scope Z_scope.
Local Open Scope string_scope.
Local Open Scope list_scope.

(** ** Values and documents *)

(** A [bson.ObjectId] holds bytes: twelve of them, or fewer when it was built
    from a string with white space in it (see [ObjectId_of_str]).  Twelve
    bytes are kept as the number they spell big-endian, below [2^96]; [k]
    bytes, [k < 12], that spell [n] are kept as [2^96 + 256^k + n]. *)
Definition ObjectId := N.

Definition oid_bound : N := (2 ^ 96)%N.

(** A naive [datetime.datetime], as the driver decodes BSON dates. *)
Record datetime := mk_datetime {
  year : N; month : N; day : N;
  hour : N; minute : N; second : N; microsecond : N
}.

#[warnings="-register-all"]
Inductive value :=
| VNull
| VInt (z : Z)
| VStr (s : string)
| VList (l : list value)
| VOid (o : ObjectId)
| VDate (t : datetime).

Abbreviation document := (gmap string value).

(** ** Digits *)

Definition digit_char (d : N) : ascii :=
  match d with
  | 0 => "0" | 1 => "1" | 2 => "2" | 3 => "3" | 4 => "4"
  | 5 => "5" | 6 => "6" | 7 => "7" | 8 => "8" | 9 => "9"
  | 10 => "a" | 11 => "b" | 12 => "c" | 13 => "d" | 14 => "e"
  | _ => "f"
  end%N%char.

(** [digits base k n acc]: the [k] lowest digits of [n] in [base], most
    significant first, in front of [acc]. *)
Fixpoint digits (base : N) (k : nat) (n : N) (acc : string) : string :=
  match k with
  | O => acc
  | S k' => digits base k' (n / base)%N (String (digit_char (n mod base)%N) acc)
  end.

(** Value of a hexadecimal digit, in either case. *)
Definition hex_val (c : ascii) : option N :=
  let n := N_of_ascii c in
  if ((48 <=? n) && (n <=? 57))%N then Some (n - 48)%N
  else if ((97 <=? n) && (n <=? 102))%N then Some (n - 87)%N
  else if ((65 <=? n) && (n <=? 70))%N then Some (n - 55)%N
  else None.

Fixpoint hex_parse (s : string) (acc : N) : option N :=
  match s with
  | EmptyString => Some acc
  | String c s' =>
      match hex_val c with
      | Some d => hex_parse s' (acc * 16 + d)%N
      | None => None
      end
  end.

(** ASCII white space: tab, line feed, vertical tab, form feed, carriage
    return and space. *)
Definition is_space (c : ascii) : bool :=
  let n := N_of_ascii c in ((9 <=? n) && (n <=? 13) || (n =? 32))%N.

(** [bytes.fromhex]: two hexadecimal digits per byte, with white space
    skipped in front of a byte and at the end, not between the two digits of
    a byte.  The bytes read are returned as their number and the number they
    spell big-endian. *)
Fixpoint fromhex (s : string) (count : nat) (acc : N) : option (nat * N) :=
  match s with
  | EmptyString => Some (count, acc)
  | String c s' =>
      if is_space c then fromhex s' count acc
      else
        match hex_val c, s' with
        | Some top, String c' s'' =>
            match hex_val c' with
            | Some bot => fromhex s'' (S count) ((acc * 16 + top) * 16 + bot)%N
            | None => None
            end
        | _, _ => None
        end
  end.

(** The identifier that holds [count] bytes spelling [n]. *)
Definition ObjectId_of_bytes (count : nat) (n : N) : ObjectId :=
  if Nat.eqb count 12 then n
  else (oid_bound + 256 ^ N.of_nat count + n)%N.

(** The bytes an identifier holds: their number and the number they spell. *)
Definition ObjectId_binary (o : ObjectId) : nat * N :=
  if (o <? oid_bound)%N then (12%nat, o)
  else
    let r := (o - oid_bound)%N in
    let k := (N.log2 r / 8)%N in
    (N.to_nat k, (r - 256 ^ k)%N).

(** [str(ObjectId)]: the bytes in hexadecimal, two lowercase digits each;
    twenty-four digits for twelve bytes. *)
Definition str_oid (o : ObjectId) : string :=
  let (count, n) := ObjectId_binary o in digits 16 (2 * count) n "".

(** [ObjectId(id_str)] for a [str] argument: the string must have twenty-four
    characters and [bytes.fromhex] must read it; the bytes read are kept
    whatever their number.  [None] stands for [InvalidId]. *)
Definition ObjectId_of_str (id_str : string) : option ObjectId :=
  if Nat.eqb (String.length id_str) 24 then
    match fromhex id_str 0 0 with
    | Some (count, n) => Some (ObjectId_of_bytes count n)
    | None => None
    end
  else None.

(** ** [datetime.isoformat] and [str] *)

Definition isoformat_sep (sep : string) (t : datetime) : string :=
  digits 10 4 (year t) "" +:+ "-" +:+ digits 10 2 (month t) "" +:+ "-" +:+
  digits 10 2 (day t) "" +:+ sep +:+
  digits 10 2 (hour t) "" +:+ ":" +:+ digits 10 2 (minute t) "" +:+ ":" +:+
  digits 10 2 (second t) "" +:+
  (if (microsecond t =? 0)%N then "" else "." +:+ digits 10 6 (microsecond t) "").

Definition isoformat (t : datetime) : string := isoformat_sep "T" t.

Definition join_comma (l : list string) : string :=
  match l with
  | [] => ""
  | x :: xs => fold_left (fun acc y => acc +:+ ", " +:+ y) xs x
  end.

(** Python [repr] of a [str], whose characters are taken as the code points
    up to 255.  The quote is the apostrophe, or the double quote when the
    string holds an apostrophe and no double quote; the quote and the
    backslash are escaped, tab, line feed and carriage return are written
    [\t], [\n] and [\r], and any other character that is not printable as
    [\x] and two digits. *)
Definition printable (c : ascii) : bool :=
  let n := N_of_ascii c in
  ((32 <=? n) && (n <? 127) || (161 <=? n) && negb (n =? 173))%N.

Definition repr_char (quote c : ascii) : string :=
  if Ascii.eqb c quote || Ascii.eqb c "\" then String "\" (String c "")
  else if Ascii.eqb c "009" then "\t"
  else if Ascii.eqb c "010" then "\n"
  else if Ascii.eqb c "013" then "\r"
  else if printable c then String c ""
  else "\x" +:+ digits 16 2 (N_of_ascii c) "".

Definition repr_str (s : string) : string :=
  let cs := list_ascii_of_string s in
  let quote :=
    if existsb (Ascii.eqb "'") cs && negb (existsb (Ascii.eqb "034") cs)
    then "034"%char else "'"%char in
  String quote
    (fold_right (fun c acc => repr_char quote c +:+ acc) (String quote "") cs).

(** Python [repr] of a [datetime]: the seconds and the microseconds are left
    out when they are zero. *)
Definition repr_datetime (t : datetime) : string :=
  "datetime.datetime("
  +:+ pretty (year t) +:+ ", " +:+ pretty (month t) +:+ ", "
  +:+ pretty (day t) +:+ ", " +:+ pretty (hour t) +:+ ", "
  +:+ pretty (minute t)
  +:+ (if (microsecond t =? 0)%N then
         if (second t =? 0)%N then "" else ", " +:+ pretty (second t)
       else ", " +:+ pretty (second t) +:+ ", " +:+ pretty (microsecond t))
  +:+ ")".

(** Python [repr] on a value, which [str] of a list applies to its
    elements. *)
Fixpoint py_repr (v : value) : string :=
  match v with
  | VNull => "None"
  | VInt z => pretty z
  | VStr s => repr_str s
  | VList l => "[" +:+ join_comma (map py_repr l) +:+ "]"
  | VOid o => "ObjectId('" +:+ str_oid o +:+ "')"
  | VDate t => repr_datetime t
  end.

(** Python [str] on a value. *)
Definition py_str (v : value) : string :=
  match v with
  | VStr s => s
  | VOid o => str_oid o
  | VDate t => isoformat_sep " " t
  | _ => py_repr v
  end.

(** ** [serialize] *)

(** [hasattr(v, "isoformat")] holds of dates only. *)
Definition render_value (v : value) : value :=
  match v with
  | VDate t => VStr (isoformat t)
  | _ => v
  end.

(** [serialize(doc)]; [None] is Python's [None], and an empty dict is falsy
    too, so both come back as they are. *)
Definition serialize (doc : option document) : option document :=
  match doc with
  | None => None
  | Some d0 =>
      if decide (d0 = ∅) then Some d0
      else
        let d :=
          match d0 !! "_id" with
          | Some i => <["id" := VStr (py_str i)]> (delete "_id" d0)
          | None => d0
          end in
        Some (render_value <$> d)
  end.

(** ** Filters of the document store *)

(** Equality of values, as the store compares a queried value with a stored
    one. *)
Fixpoint value_eqb (a b : value) : bool :=
  match a, b with
  | VNull, VNull => true
  | VInt x, VInt y => (x =? y)%Z
  | VStr x, VStr y => String.eqb x y
  | VList x, VList y =>
      (fix all2 (l1 l2 : list value) : bool :=
         match l1, l2 with
         | [], [] => true
         | v1 :: r1, v2 :: r2 => value_eqb v1 v2 && all2 r1 r2
         | _, _ => false
         end) x y
  | VOid x, VOid y => (x =? y)%N
  | VDate x, VDate y =>
      (year x =? year y)%N && (month x =? month y)%N && (day x =? day y)%N &&
      (hour x =? hour y)%N && (minute x =? minute y)%N &&
      (second x =? second y)%N && (microsecond x =? microsecond y)%N
  | _, _ => false
  end.

(** The regular expressions of the modelled fragment: a sequence of literal
    ASCII characters and dots.  Every other pattern is outside the fragment:
    the other special characters, and the characters beyond ASCII, whose
    case folding is not modelled. *)
Inductive atom :=
| Lit (c : ascii)
| AnyChar.

Definition is_ascii (c : ascii) : bool := (N_of_ascii c <? 128)%N.

Definition is_meta (c : ascii) : bool :=
  existsb (Ascii.eqb c)
    (list_ascii_of_string "\^$.|?*+()[]{}").

Fixpoint regex_compile (pattern : string) : option (list atom) :=
  match pattern with
  | EmptyString => Some []
  | String c rest =>
      match regex_compile rest with
      | None => None
      | Some r =>
          if Ascii.eqb c "."%char then Some (AnyChar :: r)
          else if is_meta c || negb (is_ascii c) then None
          else Some (Lit c :: r)
      end
  end.

(** Case folding of the option [i], on the ASCII letters. *)
Definition to_lower (c : ascii) : ascii :=
  let n := N_of_ascii c in
  if ((65 <=? n) && (n <=? 90))%N then ascii_of_N (n + 32) else c.

Definition atom_matches (ci : bool) (a : atom) (c : ascii) : bool :=
  match a with
  | Lit x => if ci then Ascii.eqb (to_lower x) (to_lower c) else Ascii.eqb x c
  | AnyChar => negb (Ascii.eqb c "010"%char)
  end.

(** The pattern matches a prefix of the subject. *)
Fixpoint match_here (ci : bool) (r : list atom) (s : list ascii) : bool :=
  match r, s with
  | [], _ => true
  | _ :: _, [] => false
  | a :: r', c :: s' => atom_matches ci a c && match_here ci r' s'
  end.

(** Unanchored search: the pattern matches at some position. *)
Fixpoint regex_search (ci : bool) (r : list atom) (s : list ascii) : bool :=
  match_here ci r s ||
  match s with
  | [] => false
  | _ :: s' => regex_search ci r s'
  end.

(** One constraint of a filter document. *)
Inductive cond :=
| Eq (v : value)
| Regex (r : list atom) (ci : bool).

Abbreviation query := (list (string * cond)).

(** [{field: v}] holds when the stored value equals [v] or is an array with
    an element equal to [v]; a query for null also holds of a missing field. *)
Definition eq_matches (stored : option value) (v : value) : bool :=
  match stored with
  | None => value_eqb v VNull
  | Some (VList l) => value_eqb (VList l) v || existsb (fun x => value_eqb x v) l
  | Some w => value_eqb w v
  end.

Definition regex_matches (stored : option value) (r : list atom) (ci : bool) : bool :=
  match stored with
  | Some (VStr s) => regex_search ci r (list_ascii_of_string s)
  | Some (VList l) =>
      existsb (fun x => match x with
                        | VStr s => regex_search ci r (list_ascii_of_string s)
                        | _ => false
                        end) l
  | _ => false
  end.

Definition cond_matches (d : document) (fc : string * cond) : bool :=
  match snd fc with
  | Eq v => eq_matches (d !! fst fc) v
  | Regex r ci => regex_matches (d !! fst fc) r ci
  end.

Definition matches (q : query) (d : document) : bool :=
  forallb (cond_matches d) q.

(** ** Errors *)

(** One entry of the error list of a rejected request body. *)
Record error_detail := mk_error_detail {
  loc : list string;
  err_type : string
}.

Inductive error :=
| HTTPException (status_code : Z) (detail : string)
| RequestValidationError (errors : list error_detail)
| ValidationError (field reason : string)
| UnknownKindError (kind : string)
| InvalidId (id_str : string)
| KeyError (key : string)
| OverflowError
| OutsideFragment (what : string).

(** ** The document store *)

Inductive db_call :=
| CallFindOne (coll : string)
| CallFind (coll : string)
| CallInsert (coll : string)
| CallUpdateOne (coll : string).

(** The database: the documents of each collection in insertion order, the
    next identifier the store hands out, and the storage calls made so far. *)
Record store := mk_store {
  colls : gmap string (list document);
  next_oid : N;
  calls : list db_call
}.

Definition empty_store : store := mk_store ∅ 0%N [].

Definition coll_docs (s : store) (c : string) : list document :=
  default [] (colls s !! c).

Definition log_call (c : db_call) (s : store) : store :=
  mk_store (colls s) (next_oid s) (calls s ++ [c]).

Definition set_docs (c : string) (docs : list document) (s : store) : store :=
  mk_store (<[c := docs]> (colls s)) (next_oid s) (calls s).

(** [find_one]: the first matching document in natural order. *)
Definition find_one_in (q : query) (docs : list document) : option document :=
  List.find (matches q) docs.

(** [update_one] with [$set]: the first matching document takes the given
    fields, every other field and every other document stays. *)
Fixpoint update_first (q : query) (upd : document) (docs : list document)
  : list document :=
  match docs with
  | [] => []
  | d :: rest =>
      if matches q d then (upd ∪ d) :: rest
      else d :: update_first q upd rest
  end.

(** [Cursor.limit]: zero means no limit.  A negative limit asks for a single
    batch of at most as many documents as its absolute value; the batch is
    taken to hold them all, which the store grants only while they fit one
    reply, so nothing that needs every one of them is stated of a negative
    limit. *)
Definition apply_limit (n : Z) (l : list document) : list document :=
  if (n =? 0)%Z then l else take (Z.to_nat (Z.abs n)) l.

(** A limit must fit a signed 64-bit BSON integer. *)
Definition limit_fits (n : Z) : bool := (Z.abs n <? 2 ^ 63)%Z.

(** Sorting on an integer key.  Insertion from the right is stable with
    respect to the order of the list it is given. *)
Fixpoint insert_by (x : Z * document) (l : list (Z * document))
  : list (Z * document) :=
  match l with
  | [] => [x]
  | y :: rest =>
      if (fst x <=? fst y)%Z then x :: y :: rest else y :: insert_by x rest
  end.

Fixpoint sort_keyed (l : list (Z * document)) : list (Z * document) :=
  match l with
  | [] => []
  | x :: rest => insert_by x (sort_keyed rest)
  end.

Definition int_key (key : string) (d : document) : option Z :=
  match d !! key with
  | Some (VInt z) => Some z
  | _ => None
  end.

Fixpoint with_keys (key : string) (docs : list document)
  : option (list (Z * document)) :=
  match docs with
  | [] => Some []
  | d :: rest =>
      match int_key key d, with_keys key rest with
      | Some z, Some r => Some ((z, d) :: r)
      | _, _ => None
      end
  end.

(** Ascending sort on [key] of what [find] selected, which the scan of the
    collection hands over in the order of insertion; the sort moves a
    document only past documents of a greater key, so equal keys keep that
    order.  Keys that are not integers are outside the modelled fragment. *)
Definition sort_docs (key : string) (docs : list document)
  : error + list document :=
  match with_keys key docs with
  | Some kd => inr (map snd (sort_keyed kd))
  | None => inl (OutsideFragment "sort key")
  end.

(** [find(q)], then [sort] and [limit] as the cursor was configured. *)
Definition cursor (q : query) (sort : option string) (limit : Z)
           (docs : list document) : error + list document :=
  if limit_fits limit then
    let found := List.filter (matches q) docs in
    match sort with
    | None => inr (apply_limit limit found)
    | Some key =>
        match sort_docs key found with
        | inl e => inl e
        | inr sorted => inr (apply_limit limit sorted)
        end
    end
  else inl OverflowError.

(** ** Programs over the store *)

(** A handler is a tree of storage calls; each node is one call, atomic at
    the server.  [Persist] is the write of [create_document]. *)
Inductive action (A : Type) : Type :=
| Return (a : A)
| Raise (e : error)
| FindOne (coll : string) (q : query) (k : option document → action A)
| Find (coll : string) (q : query) (sort : option string) (limit : Z)
       (k : list document → action A)
| Persist (coll : string) (doc : document) (k : ObjectId → action A)
| UpdateOne (coll : string) (q : query) (upd : document) (k : action A).

Arguments Return {A} a.
Arguments Raise {A} e.
Arguments FindOne {A} coll q k.
Arguments Find {A} coll q sort limit k.
Arguments Persist {A} coll doc k.
Arguments UpdateOne {A} coll q upd k.

Fixpoint bind {A B : Type} (m : action A) (f : A → action B) : action B :=
  match m with
  | Return a => f a
  | Raise e => Raise e
  | FindOne c q k => FindOne c q (fun r => bind (k r) f)
  | Find c q s l k => Find c q s l (fun r => bind (k r) f)
  | Persist c d k => Persist c d (fun r => bind (k r) f)
  | UpdateOne c q u k => UpdateOne c q u (bind k f)
  end.

#[global] Instance action_ret : MRet action := @Return.
#[global] Instance action_bind : MBind action := fun A B f m => bind m f.

Definition find_one (coll : string) (q : query) : action (option document) :=
  FindOne coll q Return.

Definition find (coll : string) (q : query) (sort : option string) (limit : Z)
  : action (list document) :=
  Find coll q sort limit Return.

Definition update_one (coll : string) (q : query) (upd : document) : action unit :=
  UpdateOne coll q upd (Return tt).

(** The store after a write of [doc] into [coll] under a new identifier. *)
Definition persist (coll : string) (doc : document) (s : store) : store :=
  mk_store
    (<[coll := coll_docs s coll ++ [<["_id" := VOid (next_oid s)]> doc]]> (colls s))
    (next_oid s + 1)%N
    (calls s ++ [CallInsert coll]).

(** One storage call of a program. *)
Definition step {A} (a : action A) (s : store) : action A * store :=
  match a with
  | Return _ | Raise _ => (a, s)
  | FindOne c q k =>
      (k (find_one_in q (coll_docs s c)), log_call (CallFindOne c) s)
  | Find c q srt lim k =>
      (match cursor q srt lim (coll_docs s c) with
       | inl e => Raise e
       | inr l => k l
       end, log_call (CallFind c) s)
  | Persist c d k => (k (next_oid s), persist c d s)
  | UpdateOne c q u k =>
      (k, log_call (CallUpdateOne c)
            (set_docs c (update_first q u (coll_docs s c)) s))
  end.

(** A whole request, run alone. *)
Fixpoint run {A} (a : action A) (s : store) : (error + A) * store :=
  match a with
  | Return x => (inr x, s)
  | Raise e => (inl e, s)
  | FindOne c q k =>
      run (k (find_one_in q (coll_docs s c))) (log_call (CallFindOne c) s)
  | Find c q srt lim k =>
      match cursor q srt lim (coll_docs s c) with
      | inl e => (inl e, log_call (CallFind c) s)
      | inr l => run (k l) (log_call (CallFind c) s)
      end
  | Persist c d k => run (k (next_oid s)) (persist c d s)
  | UpdateOne c q u k =>
      run k (log_call (CallUpdateOne c)
               (set_docs c (update_first q u (coll_docs s c)) s))
  end.

(** Two requests in flight: the schedule names, call by call, the request
    whose next storage call is served. *)
Fixpoint interleave {A} (sched : list bool) (a b : action A) (s : store)
  : action A * action A * store :=
  match sched with
  | [] => (a, b, s)
  | true :: rest => let '(a', s') := step a s in interleave rest a' b s'
  | false :: rest => let '(b', s') := step b s in interleave rest a b' s'
  end.

Definition outcome {A} (a : action A) : option (error + A) :=
  match a with
  | Return x => Some (inr x)
  | Raise e => Some (inl e)
  | _ => None
  end.

(** ** The schema registry of [schemas.py] *)

(** A declared field: its name, its default when it has one (a field without
    default is required), its lower bound [ge] when it has one, and whether
    it is an [EmailStr]. *)
Record field_def := mk_field {
  f_name : string;
  f_default : option value;
  f_ge : option Z;
  f_email : bool
}.

Definition required (name : string) : field_def :=
  mk_field name None None false.
Definition optional (name : string) (d : value) : field_def :=
  mk_field name (Some d) None false.
Definition bounded (name : string) (d : value) (lo : Z) : field_def :=
  mk_field name (Some d) (Some lo) false.
Definition required_email (name : string) : field_def :=
  mk_field name None None true.

Definition User : list field_def :=
  [required "name"; required_email "email"; optional "role" (VStr "student");
   optional "avatar_url" VNull; optional "bio" VNull].

Definition Course : list field_def :=
  [required "title"; required "description"; required "instructor_id";
   optional "tags" (VList []); optional "cover_image" VNull;
   optional "level" VNull].

Definition Lesson : list field_def :=
  [required "course_id"; required "title"; optional "content" VNull;
   optional "video_url" VNull; bounded "order" (VInt 1) 1].

Definition Enrollment : list field_def :=
  [required "course_id"; required "user_id"; optional "role" (VStr "student")].

Definition Announcement : list field_def :=
  [required "course_id"; required "title"; required "message"].

Definition Assignment : list field_def :=
  [required "course_id"; required "title"; optional "description" VNull;
   optional "due_date" VNull; bounded "max_points" (VInt 100) 1].

Definition Submission : list field_def :=
  [required "assignment_id"; required "user_id"; optional "content" VNull;
   bounded "grade" VNull 0; optional "feedback" VNull].

(** The collection of a schema is its lowercase class name. *)
Definition describe (kind : string) : option (list field_def) :=
  if String.eqb kind "user" then Some User
  else if String.eqb kind "course" then Some Course
  else if String.eqb kind "lesson" then Some Lesson
  else if String.eqb kind "enrollment" then Some Enrollment
  else if String.eqb kind "announcement" then Some Announcement
  else if String.eqb kind "assignment" then Some Assignment
  else if String.eqb kind "submission" then Some Submission
  else None.

Definition below_bound (lo : option Z) (v : value) : bool :=
  match lo, v with
  | Some b, VInt z => (z <? b)%Z
  | _, _ => false
  end.

(** Modelled from the spec: the e-mail format, which a library behind
    [EmailStr] decides and the spec does not spell out.  What is kept is
    what any such check demands of an address: an [@] with text in front of
    it and text behind it. *)
Fixpoint split_at_sign (s : string) : option (string * string) :=
  match s with
  | EmptyString => None
  | String c s' =>
      if Ascii.eqb c "@" then Some (EmptyString, s')
      else
        match split_at_sign s' with
        | Some (l, r) => Some (String c l, r)
        | None => None
        end
  end.

Definition email_format (v : value) : bool :=
  match v with
  | VStr s =>
      match split_at_sign s with
      | Some (local_part, domain) =>
          negb (String.eqb local_part "") && negb (String.eqb domain "")
      | None => false
      end
  | _ => false
  end.

(** Modelled from the spec: the [encode] step of the document codec, which
    lives in the absent [database.py].  It fills the registry defaults of
    missing optional fields, checks required fields, lower bounds and the
    e-mail format, and stops at the first violation; it assigns no
    identifier. *)
Fixpoint encode (fields : list field_def) (entity : document)
  : (string * string) + document :=
  match fields with
  | [] => inr entity
  | f :: rest =>
      match entity !! f_name f with
      | None =>
          match f_default f with
          | None => inl (f_name f, "field required")
          | Some d => encode rest (<[f_name f := d]> entity)
          end
      | Some v =>
          if below_bound (f_ge f) v then inl (f_name f, "below the lower bound")
          else if f_email f && negb (email_format v)
               then inl (f_name f, "not an e-mail address")
          else encode rest entity
      end
  end.

(** Modelled from the spec: [create_document] of the absent [database.py].
    It encodes the entity, has the store generate a new identifier and
    persist the document, and returns the identifier in its string form. *)
Definition create_document (collection_name : string) (data : document)
  : action string :=
  match describe collection_name with
  | None => Raise (UnknownKindError collection_name)
  | Some fields =>
      match encode fields data with
      | inl (f, why) => Raise (ValidationError f why)
      | inr doc => Persist collection_name doc (fun o => Return (str_oid o))
      end
  end.

(** ** Request models of [main.py] *)

Definition opt_str (o : option string) : value :=
  match o with
  | Some s => VStr s
  | None => VNull
  end.

Definition opt_strs (o : option (list string)) : value :=
  match o with
  | Some l => VList (map VStr l)
  | None => VNull
  end.

Module CourseIn.
Record t := mk {
  title : string;
  description : string;
  instructor_id : string;
  tags : option (list string);
  cover_image : option string;
  level : option string
}.

Definition model_dump (c : t) : document :=
  <["title" := VStr (title c)]>
  (<["description" := VStr (description c)]>
  (<["instructor_id" := VStr (instructor_id c)]>
  (<["tags" := opt_strs (tags c)]>
  (<["cover_image" := opt_str (cover_image c)]>
  (<["level" := opt_str (level c)]> ∅))))).
End CourseIn.

Module LessonIn.
Record t := mk {
  course_id : string;
  title : string;
  content : option string;
  video_url : option string;
  order : Z
}.

Definition model_dump (l : t) : document :=
  <["course_id" := VStr (course_id l)]>
  (<["title" := VStr (title l)]>
  (<["content" := opt_str (content l)]>
  (<["video_url" := opt_str (video_url l)]>
  (<["order" := VInt (order l)]> ∅)))).
End LessonIn.

Module EnrollmentIn.
Record t := mk {
  course_id : string;
  user_id : string;
  role : string
}.

Definition model_dump (e : t) : document :=
  <["course_id" := VStr (course_id e)]>
  (<["user_id" := VStr (user_id e)]>
  (<["role" := VStr (role e)]> ∅)).
End EnrollmentIn.

Module AssignmentIn.
Record t := mk {
  course_id : string;
  title : string;
  description : option string;
  due_date : option string;
  max_points : Z
}.

Definition model_dump (a : t) : document :=
  <["course_id" := VStr (course_id a)]>
  (<["title" := VStr (title a)]>
  (<["description" := opt_str (description a)]>
  (<["due_date" := opt_str (due_date a)]>
  (<["max_points" := VInt (max_points a)]> ∅)))).
End AssignmentIn.

Module SubmissionIn.
Record t := mk {
  assignment_id : string;
  user_id : string;
  content : option string
}.

Definition model_dump (i : t) : document :=
  <["assignment_id" := VStr (assignment_id i)]>
  (<["user_id" := VStr (user_id i)]>
  (<["content" := opt_str (content i)]> ∅)).
End SubmissionIn.

(** ** Handlers *)

(** [oid(id_str)] *)
Definition oid (id_str : string) : action ObjectId :=
  match ObjectId_of_str id_str with
  | Some o => Return o
  | None => Raise (HTTPException 400 "Invalid id format")
  end.

(** [ObjectId(id_str)] outside [oid]: the exception is not caught. *)
Definition to_ObjectId (id_str : string) : action ObjectId :=
  match ObjectId_of_str id_str with
  | Some o => Return o
  | None => Raise (InvalidId id_str)
  end.

(** A non-empty dict is truthy; [None] and the empty dict are falsy. *)
Definition truthy (doc : option document) : bool :=
  match doc with
  | Some d => if decide (d = ∅) then false else true
  | None => false
  end.

Definition nonempty (s : option string) : option string :=
  match s with
  | Some EmptyString => None
  | other => other
  end.

(** The shared body of [create_course], [create_lesson] and
    [create_assignment]. *)
Definition create_and_fetch (coll : string) (data : document)
  : action (option document) :=
  new_id ← create_document coll data;
  o ← to_ObjectId new_id;
  doc ← find_one coll [("_id", Eq (VOid o))];
  mret (serialize doc).

Definition create_course (course : CourseIn.t) : action (option document) :=
  create_and_fetch "course" (CourseIn.model_dump course).

Definition list_courses (q tag : option string) (limit : Z)
  : action (list (option document)) :=
  match
    match nonempty q with
    | None => Some []
    | Some pat =>
        match regex_compile pat with
        | Some r => Some [("title", Regex r true)]
        | None => None
        end
    end
  with
  | None => Raise (OutsideFragment "regex")
  | Some title_filter =>
      let filt :=
        match nonempty tag with
        | Some t => title_filter ++ [("tags", Eq (VStr t))]
        | None => title_filter
        end in
      docs ← find "course" filt None limit;
      mret (map (fun d => serialize (Some d)) docs)
  end.

Definition get_course (course_id : string) : action (option document) :=
  o ← oid course_id;
  doc ← find_one "course" [("_id", Eq (VOid o))];
  if truthy doc then mret (serialize doc)
  else Raise (HTTPException 404 "Course not found").

Definition create_lesson (lesson : LessonIn.t) : action (option document) :=
  create_and_fetch "lesson" (LessonIn.model_dump lesson).

Definition list_lessons (course_id : string) : action (list (option document)) :=
  docs ← find "lesson" [("course_id", Eq (VStr course_id))] (Some "order") 0;
  mret (map (fun d => serialize (Some d)) docs).

Definition enroll (enr : EnrollmentIn.t) : action (option document) :=
  existing ← find_one "enrollment"
    [("course_id", Eq (VStr (EnrollmentIn.course_id enr)));
     ("user_id", Eq (VStr (EnrollmentIn.user_id enr)))];
  if truthy existing then mret (serialize existing)
  else create_and_fetch "enrollment" (EnrollmentIn.model_dump enr).

Definition create_assignment (item : AssignmentIn.t) : action (option document) :=
  create_and_fetch "assignment" (AssignmentIn.model_dump item).

Definition submit (item : SubmissionIn.t) : action (option document) :=
  existing ← find_one "submission"
    [("assignment_id", Eq (VStr (SubmissionIn.assignment_id item)));
     ("user_id", Eq (VStr (SubmissionIn.user_id item)))];
  let data := SubmissionIn.model_dump item in
  if truthy existing then
    match existing ≫= (fun d => d !! "_id") with
    | None => Raise (KeyError "_id")
    | Some i =>
        _ ← update_one "submission" [("_id", Eq i)] data;
        doc ← find_one "submission" [("_id", Eq i)];
        mret (serialize doc)
    end
  else create_and_fetch "submission" data.

(** ** Request bodies and their validation *)

(** A parsed JSON value; a number keeps its literal text. *)
#[warnings="-register-all"]
Inductive json :=
| JNull
| JBool (b : bool)
| JNumber (literal : string)
| JString (s : string)
| JArray (items : list json)
| JObject (members : list (string * json)).

(** The outcome of validating one value: the errors, each with its location
    below the value, or the validated value. *)
Definition checked (A : Type) : Type := list error_detail + A.

Definition fail_with {A} (ty : string) : checked A :=
  inl [mk_error_detail [] ty].

Definition at_loc {A} (prefix : list string) (c : checked A) : checked A :=
  match c with
  | inl errs =>
      inl (map (fun e => mk_error_detail (prefix ++ loc e) (err_type e)) errs)
  | inr a => inr a
  end.

(** Errors of all fields are collected, in the order of the declarations. *)
Definition ap {A B} (f : checked (A → B)) (x : checked A) : checked B :=
  match f, x with
  | inr g, inr a => inr (g a)
  | inl e1, inl e2 => inl (e1 ++ e2)
  | inl e1, inr _ => inl e1
  | inr _, inl e2 => inl e2
  end.

Infix "<*>" := ap (at level 61, left associativity).

Definition str_validator (j : json) : checked string :=
  match j with
  | JString s => inr s
  | _ => fail_with "string_type"
  end.

Definition nullable {A} (v : json → checked A) (j : json) : checked (option A) :=
  match j with
  | JNull => inr None
  | _ => match v j with
         | inr a => inr (Some a)
         | inl e => inl e
         end
  end.

Fixpoint items_validator {A} (v : json → checked A) (i : nat) (items : list json)
  : checked (list A) :=
  match items with
  | [] => inr []
  | j :: rest =>
      inr cons <*> at_loc [pretty i] (v j) <*> items_validator v (S i) rest
  end.

Definition list_validator {A} (v : json → checked A) (j : json) : checked (list A) :=
  match j with
  | JArray items => items_validator v 0 items
  | _ => fail_with "list_type"
  end.

(** A field without default: its absence is the error [missing]. *)
Definition required_field {A} (body : gmap string json) (name : string)
           (v : json → checked A) : checked A :=
  match body !! name with
  | None => inl [mk_error_detail ["body"; name] "missing"]
  | Some j => at_loc ["body"; name] (v j)
  end.

Definition default_field {A} (body : gmap string json) (name : string)
           (d : A) (v : json → checked A) : checked A :=
  match body !! name with
  | None => inr d
  | Some j => at_loc ["body"; name] (v j)
  end.

Inductive post_route :=
| PostCourses
| PostLessons
| PostEnrollments
| PostAssignments
| PostSubmissions.

(** The fields each request model declares without a default. *)
Definition required_fields (r : post_route) : list string :=
  match r with
  | PostCourses => ["title"; "description"; "instructor_id"]
  | PostLessons => ["course_id"; "title"]
  | PostEnrollments => ["course_id"; "user_id"]
  | PostAssignments => ["course_id"; "title"]
  | PostSubmissions => ["assignment_id"; "user_id"]
  end.

Section Requests.
(** The integer validator of the validation library, which also accepts
    some strings and floats; its table is not part of the sources. *)
Variable int_validator : json → checked Z.

Definition validate_CourseIn (body : gmap string json) : checked CourseIn.t :=
  inr CourseIn.mk
    <*> required_field body "title" str_validator
    <*> required_field body "description" str_validator
    <*> required_field body "instructor_id" str_validator
    <*> default_field body "tags" (Some []) (nullable (list_validator str_validator))
    <*> default_field body "cover_image" None (nullable str_validator)
    <*> default_field body "level" None (nullable str_validator).

Definition validate_LessonIn (body : gmap string json) : checked LessonIn.t :=
  inr LessonIn.mk
    <*> required_field body "course_id" str_validator
    <*> required_field body "title" str_validator
    <*> default_field body "content" None (nullable str_validator)
    <*> default_field body "video_url" None (nullable str_validator)
    <*> default_field body "order" 1%Z int_validator.

Definition validate_EnrollmentIn (body : gmap string json)
  : checked EnrollmentIn.t :=
  inr EnrollmentIn.mk
    <*> required_field body "course_id" str_validator
    <*> required_field body "user_id" str_validator
    <*> default_field body "role" "student" str_validator.

Definition validate_AssignmentIn (body : gmap string json)
  : checked AssignmentIn.t :=
  inr AssignmentIn.mk
    <*> required_field body "course_id" str_validator
    <*> required_field body "title" str_validator
    <*> default_field body "description" None (nullable str_validator)
    <*> default_field body "due_date" None (nullable str_validator)
    <*> default_field body "max_points" 100%Z int_validator.

Definition validate_SubmissionIn (body : gmap string json)
  : checked SubmissionIn.t :=
  inr SubmissionIn.mk
    <*> required_field body "assignment_id" str_validator
    <*> required_field body "user_id" str_validator
    <*> default_field body "content" None (nullable str_validator).

(** A handler runs only on a body that validates; otherwise the request is
    answered from the error list alone. *)
Definition with_body {M} (v : checked M) (handler : M → action (option document))
  : action (option document) :=
  match v with
  | inl errs => Raise (RequestValidationError errs)
  | inr m => handler m
  end.

Definition post (r : post_route) (body : gmap string json)
  : action (option document) :=
  match r with
  | PostCourses => with_body (validate_CourseIn body) create_course
  | PostLessons => with_body (validate_LessonIn body) create_lesson
  | PostEnrollments => with_body (validate_EnrollmentIn body) enroll
  | PostAssignments => with_body (validate_AssignmentIn body) create_assignment
  | PostSubmissions => with_body (validate_SubmissionIn body) submit
  end.
End Requests.

(** [GET /api/courses] with its default limit. *)
Definition get_courses (q tag : option string) (limit : option Z)
  : action (list (option document)) :=
  list_courses q tag (default 50%Z limit).

(** ** Well-formed stores and the notions the properties are stated with *)

Definition doc_oid (d : document) : option ObjectId :=
  match d !! "_id" with
  | Some (VOid o) => Some o
  | _ => None
  end.

Fixpoint distinct (l : list (option ObjectId)) : bool :=
  match l with
  | [] => true
  | x :: rest =>
      negb (existsb (fun y => bool_decide (x = y)) rest) && distinct rest
  end.

(** Every document of a collection carries an [ObjectId] the store has
    already handed out, and no two documents share one. *)
Definition coll_okb (bound : N) (docs : list document) : bool :=
  forallb (fun d => match doc_oid d with
                    | Some o => (o <? bound)%N
                    | None => false
                    end) docs
  && distinct (map doc_oid docs).

Definition ids_okb (s : store) : bool :=
  forallb (fun cd => coll_okb (next_oid s) (snd cd)) (map_to_list (colls s)).

Definition coll_ok (bound : N) (docs : list document) : Prop :=
  Forall (fun d => ∃ o, d !! "_id" = Some (VOid o) ∧ (o < bound)%N) docs
  ∧ NoDup (map doc_oid docs).

(** The dedup keys of the two rules. *)
Definition enrollment_key (course_id user_id : string) : query :=
  [("course_id", Eq (VStr course_id)); ("user_id", Eq (VStr user_id))].

Definition submission_key (assignment_id user_id : string) : query :=
  [("assignment_id", Eq (VStr assignment_id)); ("user_id", Eq (VStr user_id))].

(** The stored records of a collection that satisfy a filter. *)
Definition records (s : store) (coll : string) (q : query) : list document :=
  List.filter (matches q) (coll_docs s coll).

(** The identifier token convention: twenty-four hexadecimal digits. *)
Definition is_hex (c : ascii) : bool :=
  existsb (Ascii.eqb c) (list_ascii_of_string "0123456789abcdefABCDEF").

Definition well_formed_id (id_str : string) : bool :=
  Nat.eqb (String.length id_str) 24 && forallb is_hex (list_ascii_of_string id_str).

(** A string without its white space, and whether it holds any. *)
Fixpoint strip_space (s : string) : string :=
  match s with
  | EmptyString => EmptyString
  | String c s' =>
      if is_space c then strip_space s' else String c (strip_space s')
  end.

Definition has_space (s : string) : bool :=
  existsb is_space (list_ascii_of_string s).





(** [q] occurs in [t] when case is ignored. *)
Definition ci_contains (q t : string) : Prop :=
  ∃ pre post,
    map to_lower (list_ascii_of_string t)
    = pre ++ map to_lower (list_ascii_of_string q) ++ post.

(** An ASCII filter string without characters that are special in a
    pattern. *)
Definition literal (q : string) : bool :=
  forallb (fun c => negb (is_meta c) && is_ascii c) (list_ascii_of_string q).

(** The title is an ASCII string. *)
Definition has_ascii_title (d : document) : bool :=
  match d !! "title" with
  | Some (VStr t) => forallb is_ascii (list_ascii_of_string t)
  | _ => false
  end.

Definition has_int_order (d : document) : bool :=
  match int_key "order" d with
  | Some _ => true
  | None => false
  end.

(** The [order] of a lesson (zero when it has none). *)
Definition order_of (d : document) : Z := default 0%Z (int_key "order" d).

Definition same_order (z : Z) (d : document) : bool := (order_of d =? z)%Z.

Definition view_of (d : document) : option document := serialize (Some d).

(** The store after a resubmission that found a record between [before] and
    [after] and left [new] in its place. *)
Definition resubmitted (before after : list document) (new : document)
           (s : store) : store :=
  log_call (CallFindOne "submission")
    (log_call (CallUpdateOne "submission")
       (set_docs "submission" (before ++ new :: after)
          (log_call (CallFindOne "submission") s))).

(** The named fields of the view a handler returned. *)
Definition fields_of (names : list string) (r : error + option document)
  : option (list (option value)) :=
  match r with
  | inr (Some view) => Some (map (fun k => view !! k) names)
  | _ => None
  end.

(** A validation outcome that carries the error [d]. *)
Definition rejects {A} (d : error_detail) (c : checked A) : Prop :=
  ∃ errs, c = inl errs ∧ In d errs.

(** The error of a missing body field. *)
Definition missing (name : string) : error_detail :=
  mk_error_detail ["body"; name] "missing".

(** The titles of the views a listing returned. *)
Definition titles_of (r : error + list (option document))
  : option (list (option value)) :=
  match r with
  | inr views => Some (map (fun v => v ≫= (fun view => view !! "title")) views)
  | inl _ => None
  end.

(** ** Sample data *)

Definition first_submission : SubmissionIn.t :=
  SubmissionIn.mk "a1" "u2" (Some "v1").

Definition second_submission : SubmissionIn.t :=
  SubmissionIn.mk "a1" "u2" (Some "v2").

Definition empty_submission : SubmissionIn.t :=
  SubmissionIn.mk "a1" "u2" None.

(** A submission as an instructor has graded it. *)
Definition graded_record : document :=
  <["_id" := VOid 7%N]>
  (<["grade" := VInt 90]>
  (<["feedback" := VStr "good"]>
  (SubmissionIn.model_dump first_submission))).

Definition graded_store : store :=
  mk_store (<["submission" := [graded_record]]> ∅) 8%N [].

(** A lesson given by its two required fields only, and the document the
    store keeps for it. *)
Definition bare_lesson : document :=
  <["course_id" := VStr "c1"]> (<["title" := VStr "Threads"]> ∅).

Definition bare_lesson_doc : document :=
  <["order" := VInt 1]>
  (<["video_url" := VNull]>
  (<["content" := VNull]> bare_lesson)).

(** *** Dates *)

(** The dates [datetime.datetime] holds: a day of the proleptic Gregorian
    calendar in the years 1 to 9999 and a time of day. *)
Definition is_leap (y : N) : bool :=
  ((y mod 4 =? 0) && (negb (y mod 100 =? 0) || (y mod 400 =? 0)))%N.

Definition days_in_month (y m : N) : N :=
  match m with
  | 2 => if is_leap y then 29 else 28
  | 4 | 6 | 9 | 11 => 30
  | _ => 31
  end%N.

Definition valid_datetime (t : datetime) : bool :=
  ((1 <=? year t) && (year t <=? 9999)
   && (1 <=? month t) && (month t <=? 12)
   && (1 <=? day t) && (day t <=? days_in_month (year t) (month t))
   && (hour t <? 24) && (minute t <? 60) && (second t <? 60)
   && (microsecond t <? 1000000))%N.



(** Reading ISO-8601 text of the form [YYYY-MM-DDTHH:MM:SS], with six
    digits of a fraction of the second after a dot when there is one. *)
Definition dec_val (c : ascii) : option N :=
  let n := N_of_ascii c in
  if ((48 <=? n) && (n <=? 57))%N then Some (n - 48)%N else None.

Fixpoint read_digits (k : nat) (acc : N) (s : string) : option (N * string) :=
  match k, s with
  | O, _ => Some (acc, s)
  | S k', String c s' =>
      match dec_val c with
      | Some d => read_digits k' (acc * 10 + d)%N s'
      | None => None
      end
  | S _, EmptyString => None
  end.

(** [k] digits and then, unless [sep] is [None], the separator. *)
Definition read_field (k : nat) (sep : option ascii) (s : string)
  : option (N * string) :=
  match read_digits k 0 s with
  | Some (n, rest) =>
      match sep, rest with
      | None, _ => Some (n, rest)
      | Some c', String c rest' =>
          if Ascii.eqb c c' then Some (n, rest') else None
      | Some _, EmptyString => None
      end
  | None => None
  end.

Definition read_fraction (s : string) : option N :=
  match s with
  | EmptyString => Some 0%N
  | String c rest =>
      if Ascii.eqb c "." then
        match read_digits 6 0 rest with
        | Some (us, EmptyString) => Some us
        | _ => None
        end
      else None
  end.

Definition read_iso (s : string) : option datetime :=
  '(y, s) ← read_field 4 (Some "-"%char) s;
  '(m, s) ← read_field 2 (Some "-"%char) s;
  '(d, s) ← read_field 2 (Some "T"%char) s;
  '(h, s) ← read_field 2 (Some ":"%char) s;
  '(mi, s) ← read_field 2 (Some ":"%char) s;
  '(se, s) ← read_field 2 None s;
  us ← read_fraction s;
  let t := mk_datetime y m d h mi se us in
  if valid_datetime t then Some t else None.

(** An assignment due on 31 January 2025 at 23:59, given with its required
    fields and the date, and the document the store keeps for it. *)
Definition due_2025 : datetime := mk_datetime 2025 1 31 23 59 0 0.

Definition dated_assignment : document :=
  <["course_id" := VStr "c1"]>
  (<["title" := VStr "Essay"]>
  (<["due_date" := VDate due_2025]> ∅)).


(** A user given by name and e-mail address. *)
Definition sample_user : document :=
  <["name" := VStr "Ada"]> (<["email" := VStr "ada@example.org"]> ∅).

Definition misaddressed_user : document :=
  <["name" := VStr "Ada"]> (<["email" := VStr "ada.example.org"]> ∅).

Definition sample_user_doc : document :=
  <["bio" := VNull]>
  (<["avatar_url" := VNull]>
  (<["role" := VStr "student"]> sample_user)).

(** The course of the scenario in the specification. *)
Definition intro_course : CourseIn.t :=
  CourseIn.mk "Intro to Systems" "..." "u1" (Some []) None None.

(** An integer validator for sample runs: it takes number literals made of
    decimal digits only. *)
Definition digits_only (j : json) : checked Z :=
  match j with
  | JNumber lit =>
      let cs := list_ascii_of_string lit in
      if forallb (fun c => (48 <=? N_of_ascii c)%N && (N_of_ascii c <=? 57)%N) cs
      then inr (Z.of_N (fold_left (fun a c => a * 10 + (N_of_ascii c - 48))%N cs 0%N))
      else fail_with "int_parsing"
  | _ => fail_with "int_type"
  end.

(** A course body without its title. *)
Definition untitled_body : gmap string json :=
  <["description" := JString "..."]> (<["instructor_id" := JString "u1"]> ∅).

(** Two courses, created one after the other on an empty store. *)
Definition course_abc : CourseIn.t :=
  CourseIn.mk "abc" "first" "u1" (Some []) None None.

Definition course_ABCD : CourseIn.t :=
  CourseIn.mk "ABCD" "second" "u1" (Some []) None None.

Definition store_abc : store :=
  snd (run (create_course course_abc) empty_store).

Definition two_courses : store :=
  snd (run (create_course course_ABCD) store_abc).

(** Two lessons of one course with the same [order], created one after the
    other. *)
Definition lesson_A : LessonIn.t := LessonIn.mk "c1" "A" None None 1.

Definition lesson_B : LessonIn.t := LessonIn.mk "c1" "B" None None 1.

Definition two_lessons : store :=
  snd (run (create_lesson lesson_B)
         (snd (run (create_lesson lesson_A) empty_store))).

(** Lessons of two courses, created with their [order] values out of order:
    [A] (2), [B] (1), [Z] of another course (1), [C] (2), [D] (1). *)
Definition create_lessons (items : list LessonIn.t) (s : store) : store :=
  fold_left (fun s item => snd (run (create_lesson item) s)) items s.

Definition four_lessons : store :=
  create_lessons
    [LessonIn.mk "c1" "A" None None 2; LessonIn.mk "c1" "B" None None 1;
     LessonIn.mk "c2" "Z" None None 1;
     LessonIn.mk "c1" "C" None None 2; LessonIn.mk "c1" "D" None None 1]
    empty_store.

(** The filter of [list_lessons]. *)
Definition lessons_of (course_id : string) : query :=
  [("course_id", Eq (VStr course_id))].

Definition ascending (a b : document) : Prop := (order_of a ≤ order_of b)%Z.

Definition keyed_le (a b : Z * document) : Prop := (fst a ≤ fst b)%Z.

(** Two requests whose lookups are both served before either write, and the
    schedule that serves the first request to its end before the second. *)
Definition racing : list bool := [true; false; true; true; false; false].

Definition one_by_one : list bool := [true; true; true; false].

Definition sample_enrollment : EnrollmentIn.t := EnrollmentIn.mk "c1" "u2" "student".

(** What two requests in flight answered (the [id] of each view) and how
    many records of the key the store holds afterwards. *)
Definition race_report (coll : string) (key : query)
           (r : action (option document) * action (option document) * store)
  : option (list (option value)) * option (list (option value)) * nat :=
  let '(a, b, s) := r in
  (outcome a ≫= fields_of ["id"], outcome b ≫= fields_of ["id"],
   List.length (records s coll key)).

(** ** The other listings of [main.py] *)

Definition user_enrollments (user_id : string) : action (list (option document)) :=
  docs ← find "enrollment" [("user_id", Eq (VStr user_id))] None 0;
  mret (map (fun d => serialize (Some d)) docs).

Definition list_assignments (course_id : string) : action (list (option document)) :=
  docs ← find "assignment" [("course_id", Eq (VStr course_id))] None 0;
  mret (map (fun d => serialize (Some d)) docs).

Definition list_submissions (assignment_id : string)
  : action (list (option document)) :=
  docs ← find "submission" [("assignment_id", Eq (VStr assignment_id))] None 0;
  mret (map (fun d => serialize (Some d)) docs).

(** ** Invariants of the store *)

(** Every collection is well formed. *)
Definition ids_ok (s : store) : Prop :=
  ∀ c, coll_ok (next_oid s) (coll_docs s c).

(** The two dedup rules, for every key at once. *)
Definition unique_enrollments (s : store) : Prop :=
  ∀ c u, (List.length (records s "enrollment" (enrollment_key c u)) ≤ 1)%nat.

Definition unique_submissions (s : store) : Prop :=
  ∀ a u, (List.length (records s "submission" (submission_key a u)) ≤ 1)%nat.

(** The string with its ASCII letters in lower case. *)
Definition lower_string (s : string) : string :=
  string_of_list_ascii (map to_lower (list_ascii_of_string s)).

(** A program that only reads: no node of it writes. *)
Fixpoint reads_only {A} (a : action A) : Prop :=
  match a with
  | Return _ | Raise _ => True
  | FindOne _ _ k => ∀ r, reads_only (k r)
  | Find _ _ _ _ k => ∀ r, reads_only (k r)
  | Persist _ _ _ => False
  | UpdateOne _ _ _ _ => False
  end.

(** A program whose updates leave the identifier field alone. *)
Fixpoint keeps_ids {A} (a : action A) : Prop :=
  match a with
  | Return _ | Raise _ => True
  | FindOne _ _ k => ∀ r, keeps_ids (k r)
  | Find _ _ _ _ k => ∀ r, keeps_ids (k r)
  | Persist _ _ k => ∀ r, keeps_ids (k r)
  | UpdateOne _ _ upd k => upd !! "_id" = None ∧ keeps_ids k
  end.

(** The request leaves the contents of the store as they are. *)
Definition leaves_store {A} (a : action A) (s : store) : Prop :=
  colls (snd (run a s)) = colls s
  ∧ next_oid (snd (run a s)) = next_oid s.

(** ** Declared defaults of the request models *)

(** The fields each request model declares with a default, as [model_dump]
    shows the default. *)
Definition declared_defaults (r : post_route) : list (string * value) :=
  match r with
  | PostCourses => [("tags", VList []); ("cover_image", VNull); ("level", VNull)]
  | PostLessons => [("content", VNull); ("video_url", VNull); ("order", VInt 1)]
  | PostEnrollments => [("role", VStr "student")]
  | PostAssignments =>
      [("description", VNull); ("due_date", VNull); ("max_points", VInt 100)]
  | PostSubmissions => [("content", VNull)]
  end.

Definition declared_fields (r : post_route) : list string :=
  required_fields r ++ map fst (declared_defaults r).

Definition dump_checked {M} (dump : M → document) (c : checked M)
  : checked document :=
  match c with
  | inl errs => inl errs
  | inr m => inr (dump m)
  end.

(** The dict of the request model a body validates to. *)
Definition validated_dump (int_validator : json → checked Z) (r : post_route)
           (body : gmap string json) : checked document :=
  match r with
  | PostCourses =>
      dump_checked CourseIn.model_dump (validate_CourseIn body)
  | PostLessons =>
      dump_checked LessonIn.model_dump (validate_LessonIn int_validator body)
  | PostEnrollments =>
      dump_checked EnrollmentIn.model_dump (validate_EnrollmentIn body)
  | PostAssignments =>
      dump_checked AssignmentIn.model_dump (validate_AssignmentIn int_validator body)
  | PostSubmissions =>
      dump_checked SubmissionIn.model_dump (validate_SubmissionIn body)
  end.

(** An enrollment body without a role, and a course body whose title is a
    number. *)
Definition roleless_body : gmap string json :=
  <["course_id" := JString "c1"]> (<["user_id" := JString "u2"]> ∅).

Definition mistitled_body : gmap string json :=
  <["title" := JNumber "42"]> untitled_body.

(** A course with tags, created after the course [abc]. *)
Definition course_tagged : CourseIn.t :=
  CourseIn.mk "Systems" "third" "u1" (Some ["systems"; "os"]) None None.

Definition store_tagged : store :=
  snd (run (create_course course_tagged) store_abc).

(** The same two courses, as a store written out. *)
Definition doc_abc : document :=
  <["_id" := VOid 0%N]> (CourseIn.model_dump course_abc).

Definition doc_ABCD : document :=
  <["_id" := VOid 1%N]> (CourseIn.model_dump course_ABCD).

Definition small_catalog : store :=
  mk_store (<["course" := [doc_abc; doc_ABCD]]> ∅) 2%N [].

(** The views are those of the documents of [docs] selected by the string
    [x] under [field]: none with that value is missing, and each one has the
    value, as the field itself or as an element of its list. *)
Definition selects_by (field x : string) (docs : list document)
           (views : list (option document)) : Prop :=
  (∀ d, In d docs → d !! field = Some (VStr x) → In (view_of d) views)
  ∧ (∀ v, In v views →
          ∃ d, In d docs ∧ v = view_of d
               ∧ (d !! field = Some (VStr x)
                  ∨ ∃ l, d !! field = Some (VList l) ∧ In (VStr x) l)).

(** * Properties *)

(** ** Identifier tokens *)

Lemma hex_val_digit (d : N) : (d < 16)%N → hex_val (digit_char d) = Some d.
Proof.
  intros Hd.
  assert (Hcases : In d (map N.of_nat (seq 0 16))).
  { replace d with (N.of_nat (N.to_nat d)) by apply N2Nat.id.
    apply in_map, in_seq. lia. }
  simpl in Hcases.
  repeat (destruct Hcases as [<- | Hcases]; [reflexivity |]).
  destruct Hcases.
Qed.

Lemma digits_length (base : N) (k : nat) (n : N) (acc : string) :
  String.length (digits base k n acc) = (k + String.length acc)%nat.
Proof.
  revert n acc. induction k as [|k IH]; intros n acc; simpl; [done |].
  rewrite IH. simpl. lia.
Qed.

Lemma digits_top (base : N) (k : nat) (n : N) (acc : string) :
  digits base (S k) n acc
  = String (digit_char ((n / base ^ N.of_nat k) mod base)) (digits base k n acc).
Proof.
  revert n acc. induction k as [|k IH]; intros n acc.
  - cbn [digits]. change (N.of_nat 0) with 0%N.
    by rewrite N.pow_0_r, N.div_1_r.
  - change (digits base (S (S k)) n acc)
      with (digits base (S k) (n / base) (String (digit_char (n mod base)) acc)).
    rewrite IH. cbn [digits]. do 2 f_equal.
    rewrite Nat2N.inj_succ, N.pow_succ_r', N.Div0.div_div. reflexivity.
Qed.

Lemma hex_parse_digits (k : nat) (n a : N) (acc : string) :
  hex_parse (digits 16 k n acc) a
  = hex_parse acc (a * 16 ^ N.of_nat k + n mod 16 ^ N.of_nat k)%N.
Proof.
  revert n a acc. induction k as [|k IH]; intros n a acc.
  - simpl. rewrite N.mod_1_r. f_equal. lia.
  - cbn [digits]. rewrite IH. cbn [hex_parse].
    rewrite hex_val_digit by (apply N.mod_upper_bound; lia).
    f_equal.
    rewrite Nat2N.inj_succ, N.pow_succ_r'.
    rewrite (N.Div0.mod_mul_r n 16 (16 ^ N.of_nat k)). lia.
Qed.

Lemma hex_val_is_hex (c : ascii) : is_hex c = true ↔ is_Some (hex_val c).
Proof.
  destruct c as [[] [] [] [] [] [] [] []]; vm_compute;
    split; intros H; try discriminate; try done; try (by eexists);
    destruct H as [? H]; discriminate.
Qed.

Lemma hex_val_lower (c : ascii) (d : N) :
  hex_val c = Some d → digit_char d = to_lower c ∧ (d < 16)%N.
Proof.
  destruct c as [[] [] [] [] [] [] [] []]; vm_compute; intros H;
    try discriminate; injection H as <-; by split.
Qed.

(** A hexadecimal digit is not white space. *)
Lemma hex_val_not_space (c : ascii) (d : N) :
  hex_val c = Some d → is_space c = false.
Proof.
  destruct c as [[] [] [] [] [] [] [] []]; vm_compute; intros H;
    try discriminate; reflexivity.
Qed.

Lemma hex_parse_is_Some (s : string) (a : N) :
  is_Some (hex_parse s a) ↔ forallb is_hex (list_ascii_of_string s) = true.
Proof.
  revert a. induction s as [|c s IH]; intros a; simpl.
  - split; [done | by eexists].
  - rewrite andb_true_iff, hex_val_is_hex.
    destruct (hex_val c) as [d|].
    + rewrite IH. split; [intros H; split; [by eexists | done] | by intros [_ H]].
    + split; [intros [? H]; discriminate | intros [[? H] _]; discriminate].
Qed.

Lemma lower_string_cons (c : ascii) (s : string) :
  lower_string (String c s) = String (to_lower c) (lower_string s).
Proof. reflexivity. Qed.

Lemma append_empty (s : string) : s +:+ "" = s.
Proof.
  induction s as [|c s IH]; [done |].
  change (String c s +:+ "") with (String c (s +:+ "")). by rewrite IH.
Qed.

(** The number read from digits has them as its digits, in lower case. *)
Lemma hex_parse_text (s : string) (a n : N) (acc : string) :
  hex_parse s a = Some n →
  (n / 16 ^ N.of_nat (String.length s))%N = a
  ∧ digits 16 (String.length s) n acc = lower_string s +:+ acc.
Proof.
  revert a. induction s as [|c s IH]; intros a H.
  - simpl in H. injection H as <-. split; [apply N.div_1_r | reflexivity].
  - cbn [hex_parse] in H. destruct (hex_val c) as [d|] eqn:Hc; [| discriminate].
    destruct (hex_val_lower c d Hc) as [Hd Hlt].
    destruct (IH _ H) as [Hdiv Hdig].
    cbn [String.length]. split.
    + rewrite Nat2N.inj_succ, N.pow_succ_r', N.mul_comm.
      rewrite <- N.Div0.div_div, Hdiv.
      replace (a * 16 + d)%N with (d + a * 16)%N by lia.
      rewrite N.div_add by lia.
      rewrite N.div_small by exact Hlt. reflexivity.
    + rewrite digits_top, Hdig, Hdiv.
      replace (a * 16 + d)%N with (d + a * 16)%N by lia.
      rewrite N.Div0.mod_add.
      rewrite N.mod_small by exact Hlt.
      by rewrite Hd, lower_string_cons.
Qed.

Lemma hex_parse_bound (s : string) (n : N) :
  hex_parse s 0 = Some n → (n < 16 ^ N.of_nat (String.length s))%N.
Proof.
  intros H. destruct (hex_parse_text s 0 n "" H) as [Hdiv _].
  apply N.div_small_iff in Hdiv; [exact Hdiv |].
  apply N.pow_nonzero. done.
Qed.

(** *** White space *)

Lemma strip_space_length (s : string) :
  (String.length (strip_space s) ≤ String.length s)%nat.
Proof.
  induction s as [|c s IH]; simpl; [done |].
  destruct (is_space c); simpl; lia.
Qed.

Lemma strip_space_none (s : string) :
  has_space s = false → strip_space s = s.
Proof.
  unfold has_space. induction s as [|c s IH]; simpl; [done |].
  intros H. apply orb_false_iff in H as [Hc Hs].
  rewrite Hc. by rewrite (IH Hs).
Qed.

Lemma strip_space_same_length (s : string) :
  String.length (strip_space s) = String.length s → has_space s = false.
Proof.
  unfold has_space. induction s as [|c s IH]; simpl; [done |].
  pose proof (strip_space_length s) as Hle.
  destruct (is_space c); simpl; intros H; [lia |].
  apply IH. lia.
Qed.

Lemma is_hex_no_space (s : string) :
  forallb is_hex (list_ascii_of_string s) = true → has_space s = false.
Proof.
  unfold has_space. induction s as [|c s IH]; simpl; [done |].
  intros H. apply andb_true_iff in H as [Hc Hs].
  apply hex_val_is_hex in Hc as [d Hd].
  by rewrite (hex_val_not_space c d Hd), (IH Hs).
Qed.

(** What [bytes.fromhex] reads is what the digits spell once the white space
    is taken out, and it is two digits per byte. *)
Lemma fromhex_strip (n : nat) :
  ∀ (s : string) (c : nat) (a : N) (c' : nat) (v : N),
    (String.length s ≤ n)%nat →
    fromhex s c a = Some (c', v) →
    hex_parse (strip_space s) a = Some v
    ∧ String.length (strip_space s) = (2 * (c' - c))%nat
    ∧ (c ≤ c')%nat.
Proof.
  induction n as [|n IH]; intros s c a c' v Hlen H.
  - destruct s; [| simpl in Hlen; lia].
    simpl in H. injection H as <- <-. simpl. split_and!; [done | lia | lia].
  - destruct s as [|x s]; [simpl in H; injection H as <- <-; simpl;
                           split_and!; [done | lia | lia] |].
    cbn [fromhex] in H. cbn [strip_space]. simpl in Hlen.
    destruct (is_space x) eqn:Hx.
    + apply (IH s c a c' v); [lia | exact H].
    + destruct (hex_val x) as [top|] eqn:Htop; [| discriminate].
      destruct s as [|y s]; [discriminate |].
      destruct (hex_val y) as [bot|] eqn:Hbot; [| discriminate].
      simpl in Hlen.
      destruct (IH s (S c) _ c' v ltac:(lia) H) as (Hp & Hl & Hc).
      cbn [strip_space]. rewrite (hex_val_not_space y bot Hbot).
      cbn [hex_parse String.length]. rewrite Htop, Hbot.
      split_and!; [exact Hp | lia | lia].
Qed.

(** Without white space [bytes.fromhex] reads an even number of digits. *)
Lemma fromhex_plain (n : nat) :
  ∀ (s : string) (c : nat) (a : N),
    String.length s = (2 * n)%nat →
    has_space s = false →
    fromhex s c a
    = match hex_parse s a with
      | Some v => Some ((c + n)%nat, v)
      | None => None
      end.
Proof.
  unfold has_space.
  induction n as [|n IH]; intros s c a Hlen Hsp.
  - destruct s; [| simpl in Hlen; lia]. simpl. by rewrite Nat.add_0_r.
  - destruct s as [|x [|y s]]; [simpl in Hlen; lia | simpl in Hlen; lia |].
    simpl in Hlen. simpl in Hsp.
    apply orb_false_iff in Hsp as [Hx Hsp].
    apply orb_false_iff in Hsp as [Hy Hsp].
    cbn [fromhex hex_parse]. rewrite Hx.
    destruct (hex_val x) as [top|]; [| done].
    destruct (hex_val y) as [bot|]; [| done].
    rewrite (IH s (S c) _ ltac:(lia) Hsp).
    destruct (hex_parse s _); [| done].
    do 2 f_equal. lia.
Qed.

Lemma digits_no_space (k : nat) (n : N) (acc : string) :
  has_space (digits 16 k n acc) = has_space acc.
Proof.
  unfold has_space.
  revert n acc. induction k as [|k IH]; intros n acc; [done |].
  cbn [digits]. rewrite IH. simpl.
  rewrite (hex_val_not_space _ (n mod 16)%N); [done |].
  apply hex_val_digit, N.mod_upper_bound. lia.
Qed.

(** *** [ObjectId] and [str] *)

Lemma str_oid_twelve (o : ObjectId) :
  (o < oid_bound)%N → str_oid o = digits 16 24 o "".
Proof.
  intros Ho. unfold str_oid, ObjectId_binary.
  apply N.ltb_lt in Ho. by rewrite Ho.
Qed.

Lemma str_oid_length (o : ObjectId) :
  (o < oid_bound)%N → String.length (str_oid o) = 24%nat.
Proof.
  intros Ho. rewrite (str_oid_twelve o Ho), digits_length. reflexivity.
Qed.

Lemma ObjectId_roundtrip (o : ObjectId) :
  (o < oid_bound)%N → ObjectId_of_str (str_oid o) = Some o.
Proof.
  intros Ho. unfold ObjectId_of_str. rewrite (str_oid_length o Ho).
  change (Nat.eqb 24 24) with true. cbv iota.
  rewrite (str_oid_twelve o Ho).
  rewrite (fromhex_plain 12);
    [| by rewrite digits_length | by rewrite digits_no_space].
  rewrite hex_parse_digits. cbn [hex_parse].
  rewrite N.mul_0_l, N.add_0_l, N.mod_small; [reflexivity |].
  replace (16 ^ N.of_nat 24)%N with oid_bound by (vm_compute; reflexivity).
  exact Ho.
Qed.

(** Fewer than twelve bytes are kept apart from every twelve. *)
Lemma ObjectId_of_bytes_short (count : nat) (n : N) :
  count ≠ 12%nat → (oid_bound ≤ ObjectId_of_bytes count n)%N.
Proof.
  intros Hc. unfold ObjectId_of_bytes.
  destruct (Nat.eqb_spec count 12); [done | lia].
Qed.

Lemma ObjectId_binary_of_bytes (count : nat) (n : N) :
  (count ≤ 12)%nat → (n < 256 ^ N.of_nat count)%N →
  ObjectId_binary (ObjectId_of_bytes count n) = (count, n).
Proof.
  intros Hc Hn. unfold ObjectId_of_bytes, ObjectId_binary.
  destruct (Nat.eqb_spec count 12) as [-> | Hne].
  - replace (n <? oid_bound)%N with true; [done |].
    symmetry. apply N.ltb_lt.
    replace oid_bound with (256 ^ N.of_nat 12)%N by (vm_compute; reflexivity).
    exact Hn.
  - set (k := N.of_nat count) in *.
    replace (oid_bound + 256 ^ k + n <? oid_bound)%N with false
      by (symmetry; apply N.ltb_ge; lia).
    replace (oid_bound + 256 ^ k + n - oid_bound)%N with (256 ^ k + n)%N by lia.
    assert (Hpow : (256 ^ k = 2 ^ (8 * k))%N).
    { rewrite N.pow_mul_r. reflexivity. }
    assert (Hlog : N.log2 (256 ^ k + n) = (8 * k)%N).
    { apply N.log2_unique; [lia |].
      rewrite N.pow_succ_r', <- Hpow. lia. }
    rewrite Hlog.
    replace (8 * k / 8)%N with k by (rewrite N.mul_comm, N.div_mul; lia).
    unfold k. rewrite Nat2N.id. f_equal. lia.
Qed.

(** What the constructor accepts: twenty-four characters that are pairs of
    hexadecimal digits and white space.  The identifier's string form is the
    digits in lower case; it holds twelve bytes exactly when there was no
    white space. *)
Lemma ObjectId_of_str_accepts (s : string) (o : ObjectId) :
  ObjectId_of_str s = Some o →
  String.length s = 24%nat
  ∧ forallb is_hex (list_ascii_of_string (strip_space s)) = true
  ∧ str_oid o = lower_string (strip_space s)
  ∧ ((o < oid_bound)%N ↔ has_space s = false).
Proof.
  unfold ObjectId_of_str. intros H.
  destruct (Nat.eqb_spec (String.length s) 24) as [Hlen|]; [| discriminate].
  destruct (fromhex s 0 0) as [[count v]|] eqn:Hf; [| discriminate].
  injection H as <-.
  destruct (fromhex_strip _ s 0%nat 0%N count v (le_n _) Hf) as (Hp & Hl & _).
  pose proof (strip_space_length s) as Hle.
  assert (Hc : (count ≤ 12)%nat) by lia.
  pose proof (hex_parse_bound _ _ Hp) as Hv.
  replace (16 ^ N.of_nat (String.length (strip_space s)))%N
    with (256 ^ N.of_nat count)%N in Hv.
  2:{ rewrite Hl, Nat.sub_0_r, Nat2N.inj_mul, N.pow_mul_r. reflexivity. }
  split_and!.
  - exact Hlen.
  - apply (hex_parse_is_Some _ 0%N). by eexists.
  - unfold str_oid. rewrite (ObjectId_binary_of_bytes count v Hc Hv).
    destruct (hex_parse_text _ _ _ "" Hp) as [_ Hdig].
    rewrite Hl, Nat.sub_0_r in Hdig. rewrite Hdig. apply append_empty.
  - split.
    + intros Ho. apply strip_space_same_length.
      destruct (Nat.eq_dec count 12%nat) as [-> | Hne]; [lia |].
      pose proof (ObjectId_of_bytes_short count v Hne). lia.
    + intros Hsp. rewrite (strip_space_none s Hsp) in Hl.
      assert (count = 12%nat) as -> by lia.
      unfold ObjectId_of_bytes. simpl Nat.eqb. cbv iota.
      replace oid_bound with (256 ^ N.of_nat 12)%N by (vm_compute; reflexivity).
      exact Hv.
Qed.





(** The tokens of the convention are the strings the constructor reads as
    twelve bytes. *)
Lemma ObjectId_of_str_well_formed (s : string) :
  well_formed_id s = true
  ↔ ∃ o, ObjectId_of_str s = Some o ∧ (o < oid_bound)%N.
Proof.
  split.
  - unfold well_formed_id. intros H. apply andb_true_iff in H as [Hlen Hhex].
    pose proof (is_hex_no_space s Hhex) as Hsp.
    apply (hex_parse_is_Some s 0%N) in Hhex as [v Hv].
    assert (Ho : ObjectId_of_str s = Some v).
    { unfold ObjectId_of_str. rewrite Hlen.
      apply Nat.eqb_eq in Hlen.
      by rewrite (fromhex_plain 12 s 0%nat 0%N Hlen Hsp), Hv. }
    exists v. split; [exact Ho |].
    by apply (ObjectId_of_str_accepts s v Ho).
  - intros (o & Ho & Hlt).
    destruct (ObjectId_of_str_accepts s o Ho) as (Hlen & Hhex & _ & Hiff).
    apply Hiff in Hlt. rewrite (strip_space_none s Hlt) in Hhex.
    unfold well_formed_id. rewrite Hlen, Hhex. reflexivity.
Qed.


(** ** Documents, filters and well-formed collections *)

Lemma matches_id (o : ObjectId) (d : document) (o' : ObjectId) :
  d !! "_id" = Some (VOid o') →
  matches [("_id", Eq (VOid o))] d = (o' =? o)%N.
Proof.
  intros H. unfold matches, cond_matches. simpl. rewrite H. simpl.
  apply andb_true_r.
Qed.

Lemma coll_ok_nil (bound : N) : coll_ok bound [].
Proof. split; [constructor | constructor]. Qed.

Lemma distinct_NoDup (l : list (option ObjectId)) :
  distinct l = true → NoDup l.
Proof.
  induction l as [|x l IH]; simpl; intros H; [constructor |].
  apply andb_true_iff in H as [Hx Hl].
  constructor; [| by apply IH].
  intros Hin. apply negb_true_iff in Hx.
  assert (existsb (fun y => bool_decide (x = y)) l = true) as Hex; [| congruence].
  apply existsb_exists. exists x. split.
  - by apply list_elem_of_In.
  - by apply bool_decide_eq_true.
Qed.

Lemma coll_okb_sound (bound : N) (docs : list document) :
  coll_okb bound docs = true → coll_ok bound docs.
Proof.
  unfold coll_okb, coll_ok. intros H.
  apply andb_true_iff in H as [Hall Hd]. split.
  - apply List.Forall_forall. intros d Hin.
    rewrite forallb_forall in Hall. specialize (Hall d Hin).
    unfold doc_oid in Hall.
    destruct (d !! "_id") as [[]|]; try discriminate.
    eexists. split; [reflexivity |]. by apply N.ltb_lt.
  - by apply distinct_NoDup.
Qed.

Lemma ids_okb_sound (s : store) (c : string) :
  ids_okb s = true → coll_ok (next_oid s) (coll_docs s c).
Proof.
  intros H. unfold coll_docs.
  destruct (colls s !! c) as [docs|] eqn:Hc; simpl; [| apply coll_ok_nil].
  apply coll_okb_sound.
  unfold ids_okb in H. rewrite forallb_forall in H.
  apply (H (c, docs)).
  apply list_elem_of_In, elem_of_map_to_list. exact Hc.
Qed.

Lemma coll_ok_weaken (b b' : N) (docs : list document) :
  (b ≤ b')%N → coll_ok b docs → coll_ok b' docs.
Proof.
  intros Hb [Hall Hnd]. split; [| done].
  eapply List.Forall_impl; [| exact Hall].
  intros d (o & Hd & Ho). exists o. split; [done | lia].
Qed.

(** A filter on a fresh identifier selects nothing. *)
Lemma fresh_id_unmatched (bound o : N) (docs : list document) :
  coll_ok bound docs → (bound ≤ o)%N →
  Forall (fun d => matches [("_id", Eq (VOid o))] d = false) docs.
Proof.
  intros [Hall _] Ho.
  eapply List.Forall_impl; [| exact Hall].
  intros d (o' & Hd & Hlt). cbv beta.
  rewrite (matches_id _ _ _ Hd). apply N.eqb_neq. lia.
Qed.

Lemma find_one_in_app_none (q : query) (l1 l2 : list document) :
  Forall (fun d => matches q d = false) l1 →
  find_one_in q (l1 ++ l2) = find_one_in q l2.
Proof.
  unfold find_one_in. induction 1 as [|d l1 Hd _ IH]; simpl; [done |].
  by rewrite Hd.
Qed.

Lemma update_first_app_none (q : query) (upd : document) (l1 l2 : list document) :
  Forall (fun d => matches q d = false) l1 →
  update_first q upd (l1 ++ l2) = l1 ++ update_first q upd l2.
Proof.
  induction 1 as [|d l1 Hd _ IH]; simpl; [done |].
  by rewrite Hd, IH.
Qed.

Lemma find_one_in_none (q : query) (docs : list document) :
  find_one_in q docs = None ↔ Forall (fun d => matches q d = false) docs.
Proof.
  unfold find_one_in. induction docs as [|d docs IH]; simpl.
  - split; [constructor | done].
  - destruct (matches q d) eqn:Hd.
    + split; [discriminate | intros H; inversion H; congruence].
    + rewrite IH. split; [by constructor | by inversion 1].
Qed.

(** The first match splits the collection. *)
Lemma find_one_in_split (q : query) (docs : list document) (d : document) :
  find_one_in q docs = Some d →
  ∃ before after,
    docs = before ++ d :: after
    ∧ matches q d = true
    ∧ Forall (fun x => matches q x = false) before.
Proof.
  unfold find_one_in. induction docs as [|x docs IH]; simpl; [discriminate |].
  destruct (matches q x) eqn:Hx.
  - intros [= ->]. exists [], docs. by repeat split.
  - intros H. destruct (IH H) as (b & a & -> & Hm & Hb).
    exists (x :: b), a. repeat split; [done | by constructor].
Qed.

(** In a well-formed collection, the filter on the identifier of a stored
    document selects that document and no document before it. *)
Lemma id_unmatched_before (bound o : N) (before after : list document)
      (d : document) :
  coll_ok bound (before ++ d :: after) →
  d !! "_id" = Some (VOid o) →
  Forall (fun x => matches [("_id", Eq (VOid o))] x = false) before.
Proof.
  intros [Hall Hnd] Hd.
  apply List.Forall_forall. intros x Hin.
  rewrite List.Forall_forall in Hall.
  destruct (Hall x) as (o' & Hx & _); [apply in_or_app; by left |].
  rewrite (matches_id _ _ _ Hx). apply N.eqb_neq. intros ->.
  rewrite map_app in Hnd. simpl in Hnd.
  apply NoDup_app in Hnd as (_ & Hdis & _).
  apply (Hdis (Some o)).
  - apply list_elem_of_In, in_map_iff. exists x. split; [| done].
    unfold doc_oid. by rewrite Hx.
  - replace (doc_oid d) with (Some o) by (unfold doc_oid; by rewrite Hd).
    left.
Qed.

(** ** Running programs *)

Lemma run_bind {A B} (m : action A) (f : A → action B) (s : store) :
  run (bind m f) s
  = match run m s with
    | (inl e, s') => (inl e, s')
    | (inr a, s') => run (f a) s'
    end.
Proof.
  revert s. induction m as [a|e|c q k IH|c q srt lim k IH|c d k IH|c q u k IH];
    intros s; simpl; try done.
  destruct (cursor q srt lim (coll_docs s c)); [done | apply IH].
Qed.

Lemma coll_docs_log (c : db_call) (s : store) (coll : string) :
  coll_docs (log_call c s) coll = coll_docs s coll.
Proof. reflexivity. Qed.

Lemma coll_docs_persist (coll : string) (doc : document) (s : store) :
  coll_docs (persist coll doc s) coll
  = coll_docs s coll ++ [<["_id" := VOid (next_oid s)]> doc].
Proof. unfold coll_docs at 1, persist. simpl. by rewrite lookup_insert_eq. Qed.

Lemma coll_docs_persist_ne (coll other : string) (doc : document) (s : store) :
  coll ≠ other → coll_docs (persist coll doc s) other = coll_docs s other.
Proof.
  intros H. unfold coll_docs, persist. simpl. by rewrite lookup_insert_ne.
Qed.

Lemma coll_docs_set (coll : string) (docs : list document) (s : store) :
  coll_docs (set_docs coll docs s) coll = docs.
Proof. unfold coll_docs, set_docs. simpl. by rewrite lookup_insert_eq. Qed.

Lemma run_create_document (coll : string) (fields : list field_def)
      (data doc : document) (s : store) :
  describe coll = Some fields →
  encode fields data = inr doc →
  run (create_document coll data) s
  = (inr (str_oid (next_oid s)), persist coll doc s).
Proof.
  intros Hk He. unfold create_document. rewrite Hk, He. reflexivity.
Qed.

(** Creating and reading back: the new document is stored under the next
    identifier and comes back serialized. *)
Lemma run_create_and_fetch (coll : string) (fields : list field_def)
      (data doc : document) (s : store) :
  describe coll = Some fields →
  encode fields data = inr doc →
  coll_ok (next_oid s) (coll_docs s coll) →
  (next_oid s < oid_bound)%N →
  run (create_and_fetch coll data) s
  = (inr (view_of (<["_id" := VOid (next_oid s)]> doc)),
     log_call (CallFindOne coll) (persist coll doc s)).
Proof.
  intros Hk He Hok Hb. unfold create_and_fetch.
  change (run (bind (create_document coll data) ?f) s)
    with (run (bind (create_document coll data) f) s).
  unfold mbind, action_bind. rewrite run_bind.
  rewrite (run_create_document _ _ _ _ _ Hk He).
  unfold to_ObjectId. rewrite (ObjectId_roundtrip _ Hb).
  cbn [bind]. unfold find_one. cbn [bind run].
  rewrite coll_docs_persist.
  rewrite find_one_in_app_none
    by (eapply fresh_id_unmatched; [exact Hok | lia]).
  unfold find_one_in. cbn [List.find].
  rewrite (matches_id _ _ (next_oid s)) by apply lookup_insert_eq.
  rewrite N.eqb_refl. reflexivity.
Qed.

(** ** Views *)

Lemma view_of_id (d : document) (o : ObjectId) :
  d !! "_id" = Some (VOid o) →
  ∃ view, view_of d = Some view
          ∧ view !! "id" = Some (VStr (str_oid o))
          ∧ view !! "_id" = None
          ∧ ∀ k, k ≠ "id" → k ≠ "_id" → view !! k = render_value <$> d !! k.
Proof.
  intros Hd. unfold view_of, serialize.
  destruct (decide (d = ∅)) as [-> | _]; [by rewrite lookup_empty in Hd |].
  rewrite Hd. eexists. split; [reflexivity |]. repeat split.
  - rewrite lookup_fmap, lookup_insert_eq. reflexivity.
  - rewrite lookup_fmap, lookup_insert_ne by done.
    by rewrite lookup_delete_eq.
  - intros k Hk1 Hk2.
    rewrite lookup_fmap, lookup_insert_ne by done.
    by rewrite lookup_delete_ne.
Qed.

(** ** The two dedup keys *)

Lemma eq_str_matches (stored : value) (x : string) :
  eq_matches (Some stored) (VStr x) = true →
  stored = VStr x ∨ ∃ l, stored = VList l.
Proof.
  destruct stored; simpl; try discriminate.
  - intros H. apply String.eqb_eq in H. left. by subst.
  - intros _. right. by eexists.
Qed.

Lemma matches_cons (f : string) (c : cond) (q : query) (d : document) :
  matches ((f, c) :: q) d = cond_matches d (f, c) && matches q d.
Proof. reflexivity. Qed.

(** A document selected by a key on a string has the field, so it is not
    the empty dict. *)
Lemma matches_str_truthy (f x : string) (q : query) (d : document) :
  matches ((f, Eq (VStr x)) :: q) d = true → truthy (Some d) = true.
Proof.
  rewrite matches_cons. intros H. apply andb_true_iff in H as [H _].
  unfold truthy. destruct (decide (d = ∅)) as [-> |]; [| done].
  unfold cond_matches in H. simpl in H. by rewrite lookup_empty in H.
Qed.

Lemma matches_str_pair (f g x y : string) (d : document) :
  d !! f = Some (VStr x) → d !! g = Some (VStr y) →
  matches [(f, Eq (VStr x)); (g, Eq (VStr y))] d = true.
Proof.
  intros Hf Hg. unfold matches, cond_matches. simpl.
  rewrite Hf, Hg. simpl. by rewrite !String.eqb_refl.
Qed.

Lemma filter_unmatched (q : query) (docs : list document) :
  Forall (fun d => matches q d = false) docs → List.filter (matches q) docs = [].
Proof.
  induction 1 as [|d docs Hd _ IH]; simpl; [done |]. by rewrite Hd.
Qed.

Lemma filter_split (q : query) (before after : list document) (d : document) :
  Forall (fun x => matches q x = false) before →
  matches q d = true →
  List.filter (matches q) (before ++ d :: after)
  = d :: List.filter (matches q) after.
Proof.
  intros Hb Hd. rewrite List.filter_app, (filter_unmatched _ _ Hb). simpl.
  by rewrite Hd.
Qed.

Lemma find_split (q : query) (before after : list document) (d : document) :
  Forall (fun x => matches q x = false) before →
  matches q d = true →
  find_one_in q (before ++ d :: after) = Some d.
Proof.
  intros Hb Hd. rewrite (find_one_in_app_none _ _ _ Hb).
  unfold find_one_in. simpl. by rewrite Hd.
Qed.

Lemma update_split (q : query) (upd : document)
      (before after : list document) (d : document) :
  Forall (fun x => matches q x = false) before →
  matches q d = true →
  update_first q upd (before ++ d :: after) = before ++ (upd ∪ d) :: after.
Proof.
  intros Hb Hd. rewrite (update_first_app_none _ _ _ _ Hb). simpl.
  by rewrite Hd.
Qed.

(** ** Well-formedness is kept by the two writes *)

Lemma coll_ok_persist (n : N) (docs : list document) (doc : document) :
  coll_ok n docs → coll_ok (n + 1) (docs ++ [<["_id" := VOid n]> doc]).
Proof.
  intros [Hall Hnd]. split.
  - apply Forall_app. split.
    + eapply List.Forall_impl; [| exact Hall].
      intros d (o & Hd & Ho). exists o. split; [done | lia].
    + constructor; [| constructor].
      exists n. split; [apply lookup_insert_eq | lia].
  - rewrite map_app. apply NoDup_app. repeat split; [done | | ].
    + intros x Hx Hx'. simpl in Hx'.
      apply list_elem_of_In in Hx. apply in_map_iff in Hx as (d & <- & Hin).
      rewrite List.Forall_forall in Hall.
      destruct (Hall d Hin) as (o & Hd & Ho).
      unfold doc_oid in Hx'. rewrite Hd, lookup_insert_eq in Hx'.
      apply list_elem_of_singleton in Hx'. injection Hx' as ->. lia.
    + simpl. apply NoDup_singleton.
Qed.

Lemma coll_ok_replace (n : N) (before after : list document) (d d' : document) :
  d' !! "_id" = d !! "_id" →
  coll_ok n (before ++ d :: after) → coll_ok n (before ++ d' :: after).
Proof.
  intros Hid [Hall Hnd].
  assert (Hoid : doc_oid d' = doc_oid d) by (unfold doc_oid; by rewrite Hid).
  split.
  - apply Forall_app in Hall as [Hb Ha]. apply Forall_app. split; [done |].
    inversion Ha as [|? ? Hd Ha']; subst. constructor; [| done].
    destruct Hd as (o & Hd & Ho). exists o. by rewrite Hid.
  - rewrite map_app in *. simpl in *. by rewrite Hoid.
Qed.

(** ** Enrollment and submission, one call *)

Lemma encode_enrollment (e : EnrollmentIn.t) :
  encode Enrollment (EnrollmentIn.model_dump e) = inr (EnrollmentIn.model_dump e).
Proof. reflexivity. Qed.

Lemma encode_submission (i : SubmissionIn.t) :
  encode Submission (SubmissionIn.model_dump i)
  = inr (<["feedback" := VNull]> (<["grade" := VNull]> (SubmissionIn.model_dump i))).
Proof. reflexivity. Qed.

Lemma run_find_one {B} (coll : string) (q : query)
      (f : option document → action B) (s : store) :
  run (find_one coll q ≫= f) s
  = run (f (find_one_in q (coll_docs s coll))) (log_call (CallFindOne coll) s).
Proof. reflexivity. Qed.

Lemma run_enroll_existing (enr : EnrollmentIn.t) (s : store) (d : document) :
  find_one_in (enrollment_key (EnrollmentIn.course_id enr) (EnrollmentIn.user_id enr))
              (coll_docs s "enrollment") = Some d →
  run (enroll enr) s
  = (inr (view_of d), log_call (CallFindOne "enrollment") s).
Proof.
  intros Hf. unfold enroll. rewrite run_find_one.
  fold (enrollment_key (EnrollmentIn.course_id enr) (EnrollmentIn.user_id enr)).
  rewrite Hf.
  destruct (find_one_in_split _ _ _ Hf) as (b & a & _ & Hm & _).
  rewrite (matches_str_truthy _ _ _ _ Hm). reflexivity.
Qed.

Lemma run_enroll_fresh (enr : EnrollmentIn.t) (s : store) :
  find_one_in (enrollment_key (EnrollmentIn.course_id enr) (EnrollmentIn.user_id enr))
              (coll_docs s "enrollment") = None →
  coll_ok (next_oid s) (coll_docs s "enrollment") →
  (next_oid s < oid_bound)%N →
  run (enroll enr) s
  = (inr (view_of (<["_id" := VOid (next_oid s)]> (EnrollmentIn.model_dump enr))),
     log_call (CallFindOne "enrollment")
       (persist "enrollment" (EnrollmentIn.model_dump enr)
          (log_call (CallFindOne "enrollment") s))).
Proof.
  intros Hf Hok Hb. unfold enroll. rewrite run_find_one.
  fold (enrollment_key (EnrollmentIn.course_id enr) (EnrollmentIn.user_id enr)).
  rewrite Hf. cbn [truthy].
  by rewrite (run_create_and_fetch "enrollment" Enrollment _ _ _
                eq_refl (encode_enrollment enr)).
Qed.

(** ** Enrollment is idempotent *)

Lemma dump_enrollment_matches (c u r : string) (o : ObjectId) :
  matches (enrollment_key c u)
          (<["_id" := VOid o]> (EnrollmentIn.model_dump (EnrollmentIn.mk c u r)))
  = true.
Proof.
  apply matches_str_pair; unfold EnrollmentIn.model_dump; simpl;
    by simplify_map_eq.
Qed.

(** C1: two [enroll] calls in a row with the same course and user, on a
    well-formed store that holds at most one enrollment of the pair, both
    return the same view (so the same [id]), leave exactly one enrollment of
    the pair in the store, and the second call changes nothing in any
    collection: its role is not applied. *)
Theorem enroll_twice_idempotent (s : store)
        (course_id user_id role1 role2 : string) :
  ids_okb s = true →
  (next_oid s < oid_bound)%N →
  (List.length (records s "enrollment" (enrollment_key course_id user_id)) ≤ 1)%nat →
  ∃ (view d : document) (o : ObjectId) (s1 s2 : store),
    run (enroll (EnrollmentIn.mk course_id user_id role1)) s
      = (inr (Some view), s1)
    ∧ run (enroll (EnrollmentIn.mk course_id user_id role2)) s1
      = (inr (Some view), s2)
    ∧ records s2 "enrollment" (enrollment_key course_id user_id) = [d]
    ∧ d !! "_id" = Some (VOid o)
    ∧ view !! "id" = Some (VStr (str_oid o))
    ∧ view_of d = Some view
    ∧ colls s2 = colls s1
    ∧ next_oid s2 = next_oid s1.
Proof.
  intros Hok Hb Hone.
  pose proof (ids_okb_sound s "enrollment" Hok) as Hcoll.
  set (key := enrollment_key course_id user_id) in *.
  destruct (find_one_in key (coll_docs s "enrollment")) as [d|] eqn:Hf.
  - (* the pair is enrolled already *)
    destruct (find_one_in_split _ _ _ Hf) as (before & after & Hdocs & Hm & Hbefore).
    assert (Hd : ∃ o, d !! "_id" = Some (VOid o)).
    { destruct Hcoll as [Hall _]. rewrite Hdocs in Hall.
      apply Forall_app in Hall as [_ Hall]. inversion Hall as [|? ? (o & Ho & _) _].
      by exists o. }
    destruct Hd as [o Ho].
    destruct (view_of_id d o Ho) as (view & Hview & Hid & _).
    exists view, d, o, (log_call (CallFindOne "enrollment") s),
      (log_call (CallFindOne "enrollment") (log_call (CallFindOne "enrollment") s)).
    rewrite !(run_enroll_existing _ _ d) by exact Hf.
    rewrite Hview.
    split_and!; [reflexivity | reflexivity | | exact Ho | exact Hid
                | first [exact Hview | reflexivity] | reflexivity | reflexivity].
    unfold records in *. rewrite !coll_docs_log.
    rewrite Hdocs in Hone |- *.
    rewrite (filter_split _ _ _ _ Hbefore Hm) in Hone |- *.
    simpl in Hone. destruct (List.filter (matches key) after); [done | simpl in Hone; lia].
  - (* the first call creates the enrollment *)
    apply find_one_in_none in Hf as Hnone.
    set (dump := EnrollmentIn.model_dump (EnrollmentIn.mk course_id user_id role1)).
    set (d := <["_id" := VOid (next_oid s)]> dump).
    set (s1 := log_call (CallFindOne "enrollment")
                 (persist "enrollment" dump (log_call (CallFindOne "enrollment") s))).
    assert (Ho : d !! "_id" = Some (VOid (next_oid s))) by apply lookup_insert_eq.
    destruct (view_of_id d _ Ho) as (view & Hview & Hid & _).
    assert (Hdocs1 : coll_docs s1 "enrollment" = coll_docs s "enrollment" ++ [d]).
    { unfold s1. rewrite coll_docs_log, coll_docs_persist. reflexivity. }
    assert (Hm : matches key d = true) by apply dump_enrollment_matches.
    assert (Hf1 : find_one_in key (coll_docs s1 "enrollment") = Some d).
    { rewrite Hdocs1. by apply find_split. }
    exists view, d, (next_oid s), s1, (log_call (CallFindOne "enrollment") s1).
    rewrite (run_enroll_fresh _ s) by done.
    rewrite (run_enroll_existing _ s1 d) by exact Hf1.
    fold dump. fold d. fold s1. rewrite Hview.
    split_and!; [reflexivity | reflexivity | | exact Ho | exact Hid
                | first [exact Hview | reflexivity] | reflexivity | reflexivity].
    unfold records. rewrite coll_docs_log, Hdocs1.
    by rewrite (filter_split _ _ _ _ Hnone Hm).
Qed.

Lemma enroll_twice_idempotent_witness :
  ∃ (view d : document) (o : ObjectId) (s1 s2 : store),
    run (enroll (EnrollmentIn.mk "c1" "u2" "student")) empty_store
      = (inr (Some view), s1)
    ∧ run (enroll (EnrollmentIn.mk "c1" "u2" "ta")) s1
      = (inr (Some view), s2)
    ∧ records s2 "enrollment" (enrollment_key "c1" "u2") = [d]
    ∧ d !! "_id" = Some (VOid o)
    ∧ view !! "id" = Some (VStr (str_oid o))
    ∧ view_of d = Some view
    ∧ colls s2 = colls s1
    ∧ next_oid s2 = next_oid s1.
Proof.
  apply (enroll_twice_idempotent empty_store "c1" "u2" "student" "ta").
  - reflexivity.
  - reflexivity.
  - vm_compute. lia.
Defined.

(** ** Submission: the overwrite and the creation *)

Lemma dump_submission_id (i : SubmissionIn.t) :
  SubmissionIn.model_dump i !! "_id" = None.
Proof. reflexivity. Qed.

Lemma union_dump_lookup (i : SubmissionIn.t) (d : document) (k : string) :
  k ≠ "assignment_id" → k ≠ "user_id" → k ≠ "content" →
  (SubmissionIn.model_dump i ∪ d) !! k = d !! k.
Proof.
  intros H1 H2 H3. apply lookup_union_r.
  unfold SubmissionIn.model_dump. by rewrite !lookup_insert_ne, lookup_empty.
Qed.

Lemma union_dump_key (i : SubmissionIn.t) (d : document) :
  (SubmissionIn.model_dump i ∪ d) !! "assignment_id"
    = Some (VStr (SubmissionIn.assignment_id i))
  ∧ (SubmissionIn.model_dump i ∪ d) !! "user_id"
    = Some (VStr (SubmissionIn.user_id i))
  ∧ (SubmissionIn.model_dump i ∪ d) !! "content"
    = Some (opt_str (SubmissionIn.content i)).
Proof.
  split_and!; apply lookup_union_Some_l; reflexivity.
Qed.

Lemma union_dump_matches (i : SubmissionIn.t) (d : document) :
  matches (submission_key (SubmissionIn.assignment_id i) (SubmissionIn.user_id i))
          (SubmissionIn.model_dump i ∪ d) = true.
Proof.
  destruct (union_dump_key i d) as (Ha & Hu & _).
  by apply matches_str_pair.
Qed.

Lemma run_submit_existing (item : SubmissionIn.t) (s : store)
      (before after : list document) (d : document) :
  let key := submission_key (SubmissionIn.assignment_id item)
                            (SubmissionIn.user_id item) in
  let new := SubmissionIn.model_dump item ∪ d in
  coll_docs s "submission" = before ++ d :: after →
  Forall (fun x => matches key x = false) before →
  matches key d = true →
  coll_ok (next_oid s) (coll_docs s "submission") →
  run (submit item) s = (inr (view_of new), resubmitted before after new s).
Proof.
  intros key new Hdocs Hbefore Hm Hok.
  assert (Hd : ∃ o, d !! "_id" = Some (VOid o)).
  { destruct Hok as [Hall _]. rewrite Hdocs in Hall.
    apply Forall_app in Hall as [_ Hall].
    inversion Hall as [|? ? (o & Ho & _) _]. by exists o. }
  destruct Hd as [o Ho].
  rewrite Hdocs in Hok.
  pose proof (id_unmatched_before _ _ _ _ _ Hok Ho) as Hidb.
  unfold submit. rewrite run_find_one. fold key.
  rewrite Hdocs, (find_split _ _ _ _ Hbefore Hm).
  rewrite (matches_str_truthy _ _ _ _ Hm).
  cbn [mbind option_bind]. rewrite Ho.
  unfold update_one, find_one.
  cbn [mbind action_bind bind run].
  rewrite !coll_docs_log, coll_docs_set, Hdocs.
  rewrite (update_split _ _ _ _ _ Hidb)
    by (rewrite (matches_id _ _ _ Ho); apply N.eqb_refl).
  assert (Hnew : new !! "_id" = Some (VOid o)).
  { unfold new. rewrite lookup_union_r by apply dump_submission_id. exact Ho. }
  rewrite (find_split _ _ _ _ Hidb)
    by (rewrite (matches_id _ _ _ Hnew); apply N.eqb_refl).
  reflexivity.
Qed.

Lemma run_submit_fresh (item : SubmissionIn.t) (s : store) :
  let key := submission_key (SubmissionIn.assignment_id item)
                            (SubmissionIn.user_id item) in
  let doc := <["feedback" := VNull]>
               (<["grade" := VNull]> (SubmissionIn.model_dump item)) in
  find_one_in key (coll_docs s "submission") = None →
  coll_ok (next_oid s) (coll_docs s "submission") →
  (next_oid s < oid_bound)%N →
  run (submit item) s
  = (inr (view_of (<["_id" := VOid (next_oid s)]> doc)),
     log_call (CallFindOne "submission")
       (persist "submission" doc (log_call (CallFindOne "submission") s))).
Proof.
  intros key doc Hf Hok Hb. unfold submit. rewrite run_find_one.
  subst key. unfold submission_key in Hf. rewrite Hf. cbn [truthy].
  by rewrite (run_create_and_fetch "submission" Submission _ _ _
                eq_refl (encode_submission item)).
Qed.

(** ** Resubmission *)

Lemma matches_pair_inv (f g a u : string) (d : document) :
  matches [(f, Eq (VStr a)); (g, Eq (VStr u))] d = true →
  (∀ x, d !! f = Some (VStr x) → x = a) ∧ (∀ y, d !! g = Some (VStr y) → y = u).
Proof.
  unfold matches, cond_matches. simpl. rewrite andb_true_r, andb_true_iff.
  intros [Hf Hg]. split.
  - intros x Hx. rewrite Hx in Hf. simpl in Hf. by apply String.eqb_eq.
  - intros y Hy. rewrite Hy in Hg. simpl in Hg. by apply String.eqb_eq.
Qed.

Lemma coll_docs_resubmitted (before after : list document) (new : document)
      (s : store) :
  coll_docs (resubmitted before after new s) "submission" = before ++ new :: after.
Proof. unfold resubmitted. by rewrite !coll_docs_log, coll_docs_set. Qed.

Lemma coll_docs_resubmitted_ne (before after : list document) (new : document)
      (s : store) (c : string) :
  c ≠ "submission" → coll_docs (resubmitted before after new s) c = coll_docs s c.
Proof.
  intros Hc. unfold resubmitted, coll_docs, set_docs, log_call. simpl.
  by rewrite lookup_insert_ne.
Qed.

Lemma submit_on_existing (item : SubmissionIn.t) (s : store)
      (d : document) :
  let key := submission_key (SubmissionIn.assignment_id item)
                            (SubmissionIn.user_id item) in
  ids_okb s = true →
  find_one_in key (coll_docs s "submission") = Some d →
  ∃ before after,
    coll_docs s "submission" = before ++ d :: after
    ∧ Forall (fun x => matches key x = false) before
    ∧ matches key d = true
    ∧ run (submit item) s
      = (inr (view_of (SubmissionIn.model_dump item ∪ d)),
         resubmitted before after (SubmissionIn.model_dump item ∪ d) s).
Proof.
  intros key Hok Hf.
  destruct (find_one_in_split _ _ _ Hf) as (before & after & Hdocs & Hm & Hb).
  exists before, after. split_and!; [done | done | done |].
  apply run_submit_existing; [done | done | done |].
  by apply ids_okb_sound.
Qed.

(** C5: a [submit] call that finds a submission of the assignment and user
    keeps the record in its place and leaves its identifier, its grade and
    its feedback as they were, like every field other than the three the
    request carries; the two key fields are written back with the values
    they were found by, so on a record whose key fields are strings only
    [content] changes.  The other records and collections are untouched. *)
Theorem resubmit_frame (item : SubmissionIn.t) (s : store)
        (d : document) :
  ids_okb s = true →
  find_one_in (submission_key (SubmissionIn.assignment_id item)
                              (SubmissionIn.user_id item))
              (coll_docs s "submission") = Some d →
  ∃ (before after : list document) (new : document) (s' : store),
    coll_docs s "submission" = before ++ d :: after
    ∧ run (submit item) s = (inr (view_of new), s')
    ∧ coll_docs s' "submission" = before ++ new :: after
    ∧ new !! "_id" = d !! "_id"
    ∧ new !! "grade" = d !! "grade"
    ∧ new !! "feedback" = d !! "feedback"
    ∧ (∀ k, k ≠ "assignment_id" → k ≠ "user_id" → k ≠ "content" →
            new !! k = d !! k)
    ∧ (∀ x y, d !! "assignment_id" = Some (VStr x) →
              d !! "user_id" = Some (VStr y) →
              ∀ k, k ≠ "content" → new !! k = d !! k)
    ∧ (∀ c, c ≠ "submission" → coll_docs s' c = coll_docs s c)
    ∧ next_oid s' = next_oid s.
Proof.
  intros Hok Hf.
  destruct (submit_on_existing item s d Hok Hf)
    as (before & after & Hdocs & Hb & Hm & Hrun).
  exists before, after, (SubmissionIn.model_dump item ∪ d),
    (resubmitted before after (SubmissionIn.model_dump item ∪ d) s).
  split_and!.
  - exact Hdocs.
  - exact Hrun.
  - apply coll_docs_resubmitted.
  - by apply union_dump_lookup.
  - by apply union_dump_lookup.
  - by apply union_dump_lookup.
  - intros k. apply union_dump_lookup.
  - intros x y Hx Hy k Hk.
    destruct (matches_pair_inv _ _ _ _ _ Hm) as [Ha Hu].
    destruct (union_dump_key item d) as (Ka & Ku & _).
    destruct (decide (k = "assignment_id")) as [-> |];
      [by rewrite Ka, Hx, (Ha x Hx) |].
    destruct (decide (k = "user_id")) as [-> |];
      [by rewrite Ku, Hy, (Hu y Hy) |].
    by apply union_dump_lookup.
  - intros c. apply coll_docs_resubmitted_ne.
  - reflexivity.
Qed.

Lemma resubmit_frame_witness :
  ∃ (before after : list document) (new : document) (s' : store),
    coll_docs graded_store "submission" = before ++ graded_record :: after
    ∧ run (submit second_submission) graded_store
      = (inr (view_of new), s')
    ∧ coll_docs s' "submission" = before ++ new :: after
    ∧ new !! "_id" = graded_record !! "_id"
    ∧ new !! "grade" = graded_record !! "grade"
    ∧ new !! "feedback" = graded_record !! "feedback"
    ∧ (∀ k, k ≠ "assignment_id" → k ≠ "user_id" → k ≠ "content" →
            new !! k = graded_record !! k)
    ∧ (∀ x y, graded_record !! "assignment_id" = Some (VStr x) →
              graded_record !! "user_id" = Some (VStr y) →
              ∀ k, k ≠ "content" → new !! k = graded_record !! k)
    ∧ (∀ c, c ≠ "submission" → coll_docs s' c = coll_docs graded_store c)
    ∧ next_oid s' = next_oid graded_store.
Proof.
  apply (resubmit_frame second_submission graded_store graded_record).
  - reflexivity.
  - reflexivity.
Defined.

(** C10: after a [submit] call that finds a submission of the pair, the
    stored [content] is the content of the call; a call without content
    stores null, whatever the record held. *)
Theorem resubmit_sets_content (item : SubmissionIn.t)
        (s : store) (d : document) :
  ids_okb s = true →
  find_one_in (submission_key (SubmissionIn.assignment_id item)
                              (SubmissionIn.user_id item))
              (coll_docs s "submission") = Some d →
  ∃ (before after : list document) (new : document) (s' : store),
    coll_docs s "submission" = before ++ d :: after
    ∧ run (submit item) s = (inr (view_of new), s')
    ∧ coll_docs s' "submission" = before ++ new :: after
    ∧ new !! "content" = Some (opt_str (SubmissionIn.content item))
    ∧ (SubmissionIn.content item = None → new !! "content" = Some VNull).
Proof.
  intros Hok Hf.
  destruct (submit_on_existing item s d Hok Hf)
    as (before & after & Hdocs & Hb & Hm & Hrun).
  destruct (union_dump_key item d) as (_ & _ & Hc).
  exists before, after, (SubmissionIn.model_dump item ∪ d),
    (resubmitted before after (SubmissionIn.model_dump item ∪ d) s).
  split_and!; [exact Hdocs | exact Hrun | apply coll_docs_resubmitted | exact Hc |].
  intros Hnone. by rewrite Hc, Hnone.
Qed.

Lemma resubmit_sets_content_witness :
  graded_record !! "content" = Some (VStr "v1")
  ∧ ∃ (before after : list document) (new : document) (s' : store),
    coll_docs graded_store "submission" = before ++ graded_record :: after
    ∧ run (submit empty_submission) graded_store
      = (inr (view_of new), s')
    ∧ coll_docs s' "submission" = before ++ new :: after
    ∧ new !! "content" = Some (opt_str (SubmissionIn.content empty_submission))
    ∧ (SubmissionIn.content empty_submission = None →
       new !! "content" = Some VNull).
Proof.
  split; [reflexivity |].
  apply (resubmit_sets_content empty_submission graded_store
           graded_record).
  - reflexivity.
  - reflexivity.
Defined.

(** ** Submission is an upsert *)

Lemma created_submission_matches (i : SubmissionIn.t) (o : ObjectId) :
  matches (submission_key (SubmissionIn.assignment_id i) (SubmissionIn.user_id i))
          (<["_id" := VOid o]>
             (<["feedback" := VNull]>
                (<["grade" := VNull]> (SubmissionIn.model_dump i)))) = true.
Proof.
  apply matches_str_pair; unfold SubmissionIn.model_dump; simpl;
    by simplify_map_eq.
Qed.

(** C2: two [submit] calls in a row for the same assignment and user, on a
    well-formed store that holds at most one submission of the pair, leave
    exactly one submission of the pair; its content is the content of the
    second call, and its identifier is the [id] both calls return. *)
Theorem submit_twice_upsert (s : store)
        (assignment_id user_id : string) (content1 content2 : option string) :
  ids_okb s = true →
  (next_oid s < oid_bound)%N →
  (List.length (records s "submission" (submission_key assignment_id user_id)) ≤ 1)%nat →
  ∃ (view1 view2 d : document) (o : ObjectId) (s1 s2 : store),
    run (submit (SubmissionIn.mk assignment_id user_id content1)) s
      = (inr (Some view1), s1)
    ∧ run (submit (SubmissionIn.mk assignment_id user_id content2)) s1
      = (inr (Some view2), s2)
    ∧ records s2 "submission" (submission_key assignment_id user_id) = [d]
    ∧ d !! "content" = Some (opt_str content2)
    ∧ d !! "_id" = Some (VOid o)
    ∧ view1 !! "id" = Some (VStr (str_oid o))
    ∧ view2 !! "id" = Some (VStr (str_oid o)).
Proof.
  intros Hok Hb Hone.
  pose proof (ids_okb_sound s "submission" Hok) as Hcoll.
  set (key := submission_key assignment_id user_id) in *.
  set (item1 := SubmissionIn.mk assignment_id user_id content1).
  set (item2 := SubmissionIn.mk assignment_id user_id content2).
  (* both cases end with the second call overwriting a record [d1] *)
  assert (Hsecond : ∀ (s1 : store) (before after : list document) (d1 : document)
                      (o : ObjectId),
             coll_docs s1 "submission" = before ++ d1 :: after →
             Forall (fun x => matches key x = false) before →
             List.filter (matches key) after = [] →
             matches key d1 = true →
             coll_ok (next_oid s1) (coll_docs s1 "submission") →
             d1 !! "_id" = Some (VOid o) →
             ∃ (view2 d : document) (s2 : store),
               run (submit item2) s1 = (inr (Some view2), s2)
               ∧ records s2 "submission" key = [d]
               ∧ d !! "content" = Some (opt_str content2)
               ∧ d !! "_id" = Some (VOid o)
               ∧ view2 !! "id" = Some (VStr (str_oid o))).
  { intros s1 before after d1 o Hdocs Hbefore Hafter Hm Hok1 Ho.
    pose proof (run_submit_existing item2 s1 before after d1) as Hrun.
    cbv zeta in Hrun. specialize (Hrun Hdocs Hbefore Hm Hok1).
    set (new := SubmissionIn.model_dump item2 ∪ d1) in *.
    assert (Hnew : new !! "_id" = Some (VOid o)).
    { unfold new. by rewrite lookup_union_r by apply dump_submission_id. }
    destruct (view_of_id new o Hnew) as (view2 & Hview & Hid & _).
    exists view2, new, (resubmitted before after new s1).
    rewrite Hrun, Hview. split_and!; [reflexivity | | | exact Hnew | exact Hid].
    - unfold records. rewrite coll_docs_resubmitted.
      rewrite (filter_split _ _ _ _ Hbefore (union_dump_matches item2 d1)).
      by rewrite Hafter.
    - by destruct (union_dump_key item2 d1) as (_ & _ & Hc). }
  destruct (find_one_in key (coll_docs s "submission")) as [d0|] eqn:Hf.
  - (* the first call overwrites as well *)
    destruct (find_one_in_split _ _ _ Hf) as (before & after & Hdocs & Hm & Hbefore).
    assert (Hd : ∃ o, d0 !! "_id" = Some (VOid o)).
    { destruct Hcoll as [Hall _]. rewrite Hdocs in Hall.
      apply Forall_app in Hall as [_ Hall].
      inversion Hall as [|? ? (o & Ho & _) _]. by exists o. }
    destruct Hd as [o Ho].
    pose proof (run_submit_existing item1 s before after d0) as Hrun.
    cbv zeta in Hrun. specialize (Hrun Hdocs Hbefore Hm Hcoll).
    set (new1 := SubmissionIn.model_dump item1 ∪ d0) in *.
    assert (Hnew : new1 !! "_id" = Some (VOid o)).
    { unfold new1. by rewrite lookup_union_r by apply dump_submission_id. }
    destruct (view_of_id new1 o Hnew) as (view1 & Hview & Hid & _).
    assert (Hafter : List.filter (matches key) after = []).
    { unfold records in Hone. rewrite Hdocs in Hone.
      rewrite (filter_split _ _ _ _ Hbefore Hm) in Hone. simpl in Hone.
      destruct (List.filter (matches key) after); [done | simpl in Hone; lia]. }
    destruct (Hsecond (resubmitted before after new1 s) before after new1 o)
      as (view2 & d & s2 & Hrun2 & Hrec & Hc & Hdid & Hid2).
    + apply coll_docs_resubmitted.
    + exact Hbefore.
    + exact Hafter.
    + apply (union_dump_matches item1 d0).
    + rewrite coll_docs_resubmitted.
      change (next_oid (resubmitted before after new1 s)) with (next_oid s).
      apply (coll_ok_replace _ _ _ d0); [by rewrite Hnew, Ho |].
      by rewrite <- Hdocs.
    + exact Hnew.
    + exists view1, view2, d, o, (resubmitted before after new1 s), s2.
      rewrite Hrun, Hview. by split_and!.
  - (* the first call creates the record *)
    apply find_one_in_none in Hf as Hnone.
    pose proof (run_submit_fresh item1 s) as Hrun.
    cbv zeta in Hrun. specialize (Hrun Hf Hcoll Hb).
    set (doc := <["feedback" := VNull]>
                  (<["grade" := VNull]> (SubmissionIn.model_dump item1))) in *.
    set (d1 := <["_id" := VOid (next_oid s)]> doc) in *.
    set (s1 := log_call (CallFindOne "submission")
                 (persist "submission" doc
                    (log_call (CallFindOne "submission") s))) in *.
    assert (Ho : d1 !! "_id" = Some (VOid (next_oid s))) by apply lookup_insert_eq.
    destruct (view_of_id d1 _ Ho) as (view1 & Hview & Hid & _).
    assert (Hdocs1 : coll_docs s1 "submission" = coll_docs s "submission" ++ [d1]).
    { unfold s1. by rewrite coll_docs_log, coll_docs_persist. }
    destruct (Hsecond s1 (coll_docs s "submission") [] d1 (next_oid s))
      as (view2 & d & s2 & Hrun2 & Hrec & Hc & Hdid & Hid2).
    + exact Hdocs1.
    + exact Hnone.
    + reflexivity.
    + apply (created_submission_matches item1).
    + rewrite Hdocs1.
      change (next_oid s1) with (next_oid s + 1)%N.
      by apply coll_ok_persist.
    + exact Ho.
    + exists view1, view2, d, (next_oid s), s1, s2.
      rewrite Hrun, Hview. by split_and!.
Qed.

Lemma submit_twice_upsert_witness :
  ∃ (view1 view2 d : document) (o : ObjectId) (s1 s2 : store),
    run (submit (SubmissionIn.mk "a1" "u2" (Some "v1"))) empty_store
      = (inr (Some view1), s1)
    ∧ run (submit (SubmissionIn.mk "a1" "u2" (Some "v2"))) s1
      = (inr (Some view2), s2)
    ∧ records s2 "submission" (submission_key "a1" "u2") = [d]
    ∧ d !! "content" = Some (opt_str (Some "v2"))
    ∧ d !! "_id" = Some (VOid o)
    ∧ view1 !! "id" = Some (VStr (str_oid o))
    ∧ view2 !! "id" = Some (VStr (str_oid o)).
Proof.
  apply (submit_twice_upsert empty_store "a1" "u2"
           (Some "v1") (Some "v2")).
  - reflexivity.
  - reflexivity.
  - vm_compute. lia.
Defined.

(** ** Reading one course *)





(** White space between the two digits of a byte is not skipped: such a
    string is refused. *)
Example get_course_split_pair :
  String.length "0 000000000000000000000 " = 24%nat
  ∧ run (get_course "0 000000000000000000000 ") store_abc
    = (inl (HTTPException 400 "Invalid id format"), store_abc).
Proof. split; vm_compute; reflexivity. Qed.

(** ** Creation round trip *)




(** ** Dates as text *)










(** Text that is not of the form is not read. *)
Example read_iso_samples :
  read_iso "2025-01-31T23:59:00" = Some due_2025
  ∧ read_iso "2024-02-29T00:00:00.001200"
    = Some (mk_datetime 2024 2 29 0 0 0 1200)
  ∧ read_iso "2025-02-29T00:00:00" = None
  ∧ read_iso "2025-01-31 23:59:00" = None
  ∧ read_iso "" = None.
Proof. split_and!; vm_compute; reflexivity. Qed.






(** The assignment comes back with its due date as text and the defaults of
    the fields that were not given. *)
Example create_dated_assignment :
  fields_of ["id"; "title"; "due_date"; "description"; "max_points"; "_id"]
    (fst (run (create_and_fetch "assignment" dated_assignment) empty_store))
  = Some [Some (VStr "000000000000000000000000"); Some (VStr "Essay");
          Some (VStr "2025-01-31T23:59:00"); Some VNull; Some (VInt 100);
          None]
  ∧ read_iso "2025-01-31T23:59:00" = Some due_2025.
Proof. split; vm_compute; reflexivity. Qed.

(** A user is created with the default role; an address without [@] is
    refused and nothing is stored. *)
Example create_user :
  fields_of ["id"; "name"; "email"; "role"; "avatar_url"; "bio"]
    (fst (run (create_and_fetch "user" sample_user) empty_store))
  = Some [Some (VStr "000000000000000000000000"); Some (VStr "Ada");
          Some (VStr "ada@example.org"); Some (VStr "student");
          Some VNull; Some VNull]
  ∧ run (create_and_fetch "user" misaddressed_user) empty_store
    = (inl (ValidationError "email" "not an e-mail address"), empty_store)
  ∧ run (create_and_fetch "grade" sample_user) empty_store
    = (inl (UnknownKindError "grade"), empty_store).
Proof. split_and!; vm_compute; reflexivity. Qed.

(** A lesson given by its required fields takes the defaults of the others;
    an [order] below one is refused. *)
Example create_bare_lesson :
  encode Lesson bare_lesson = inr bare_lesson_doc
  ∧ fields_of ["id"; "course_id"; "title"; "content"; "video_url"; "order"]
      (fst (run (create_and_fetch "lesson" bare_lesson) empty_store))
    = Some [Some (VStr "000000000000000000000000"); Some (VStr "c1");
            Some (VStr "Threads"); Some VNull; Some VNull; Some (VInt 1)]
  ∧ run (create_and_fetch "lesson" (<["order" := VInt 0]> bare_lesson))
        empty_store
    = (inl (ValidationError "order" "below the lower bound"), empty_store).
Proof. split_and!; vm_compute; reflexivity. Qed.

(** The scenario of the specification: the created course comes back with a
    fresh [id], an empty [tags] list and a null [level]. *)
Example create_intro_course :
  fields_of ["id"; "title"; "tags"; "level"]
    (fst (run (create_course intro_course) empty_store))
  = Some [Some (VStr "000000000000000000000000");
          Some (VStr "Intro to Systems"); Some (VList []); Some VNull].
Proof. vm_compute. reflexivity. Qed.

(** ** Rejected request bodies *)

Lemma rejects_ap_l {A B} (d : error_detail) (f : checked (A → B)) (x : checked A) :
  rejects d f → rejects d (f <*> x).
Proof.
  intros (errs & -> & Hin). destruct x as [errs'|a]; simpl.
  - exists (errs ++ errs'). split; [done |]. apply in_or_app. by left.
  - by exists errs.
Qed.

Lemma rejects_ap_r {A B} (d : error_detail) (f : checked (A → B)) (x : checked A) :
  rejects d x → rejects d (f <*> x).
Proof.
  intros (errs & -> & Hin). destruct f as [errs'|g]; simpl.
  - exists (errs' ++ errs). split; [done |]. apply in_or_app. by right.
  - by exists errs.
Qed.

Lemma required_field_missing {A} (body : gmap string json) (name : string)
      (v : json → checked A) :
  body !! name = None → rejects (missing name) (required_field body name v).
Proof.
  intros H. unfold required_field. rewrite H.
  eexists. split; [reflexivity |]. by left.
Qed.

Lemma run_with_body_rejected {M} (v : checked M)
      (handler : M → action (option document)) (d : error_detail) (s : store) :
  rejects d v →
  ∃ errs, run (with_body v handler) s = (inl (RequestValidationError errs), s)
          ∧ In d errs.
Proof. intros (errs & -> & Hin). by exists errs. Qed.

(** C6: on each of the five creating routes, a body without one of the
    fields its request model requires is answered with the validation error
    list, which holds a [missing] entry located at that field; the handler
    does not run, and the store, with its record of storage calls, is what it
    was. *)
Theorem missing_required_rejected (int_validator : json → checked Z)
        (r : post_route) (body : gmap string json)
        (s : store) (name : string) :
  In name (required_fields r) →
  body !! name = None →
  ∃ errs,
    run (post int_validator r body) s = (inl (RequestValidationError errs), s)
    ∧ In (missing name) errs.
Proof.
  intros Hin Hnone.
  destruct r; simpl in Hin; decompose [or] Hin; try contradiction; subst;
    unfold post; apply run_with_body_rejected;
    unfold validate_CourseIn, validate_LessonIn, validate_EnrollmentIn,
      validate_AssignmentIn, validate_SubmissionIn;
    repeat first
      [ solve [apply rejects_ap_r, required_field_missing; exact Hnone]
      | apply rejects_ap_l ].
Qed.

Lemma missing_required_rejected_witness :
  ∃ errs,
    run (post digits_only PostCourses untitled_body) graded_store
    = (inl (RequestValidationError errs), graded_store)
    ∧ In (missing "title") errs.
Proof.
  apply (missing_required_rejected digits_only PostCourses
           untitled_body graded_store "title").
  - simpl. by left.
  - reflexivity.
Defined.

(** ** Listing courses *)

Lemma regex_compile_literal (q : string) :
  literal q = true → regex_compile q = Some (map Lit (list_ascii_of_string q)).
Proof.
  unfold literal. induction q as [|c q IH]; simpl; [done |].
  intros H. apply andb_true_iff in H as [Hc Hq]. rewrite (IH Hq).
  apply andb_true_iff in Hc as [Hc Ha].
  apply negb_true_iff in Hc. rewrite Hc, Ha.
  destruct (Ascii.eqb c ".") eqn:Hdot; [| done].
  apply Ascii.eqb_eq in Hdot. subst c. discriminate.
Qed.

Lemma match_here_literal (cs ts : list ascii) :
  match_here true (map Lit cs) ts = true →
  ∃ post, map to_lower ts = map to_lower cs ++ post.
Proof.
  revert ts. induction cs as [|c cs IH]; intros ts; simpl.
  - intros _. by exists (map to_lower ts).
  - destruct ts as [|t ts]; [discriminate |].
    intros H. apply andb_true_iff in H as [Hc Hrest].
    apply Ascii.eqb_eq in Hc. destruct (IH ts Hrest) as [post Hpost].
    exists post. simpl. by rewrite Hc, Hpost.
Qed.

Lemma regex_search_literal (cs ts : list ascii) :
  regex_search true (map Lit cs) ts = true →
  ∃ pre post, map to_lower ts = pre ++ map to_lower cs ++ post.
Proof.
  induction ts as [|t ts IH]; simpl; intros H.
  - apply orb_true_iff in H as [H | H]; [| discriminate].
    destruct (match_here_literal cs [] H) as [post Hpost]. by exists [], post.
  - apply orb_true_iff in H as [H | H].
    + destruct (match_here_literal cs (t :: ts) H) as [post Hpost].
      by exists [], post.
    + destruct (IH H) as (pre & post & Heq).
      exists (to_lower t :: pre), post. simpl. by rewrite Heq.
Qed.

Lemma view_of_lookup (d : document) (k : string) (v : value) :
  d !! k = Some v → k ≠ "id" → k ≠ "_id" →
  ∃ view, view_of d = Some view ∧ view !! k = Some (render_value v).
Proof.
  intros Hk H1 H2. unfold view_of, serialize.
  destruct (decide (d = ∅)) as [-> |]; [by rewrite lookup_empty in Hk |].
  eexists. split; [reflexivity |].
  rewrite lookup_fmap. destruct (d !! "_id").
  - rewrite lookup_insert_ne, lookup_delete_ne by done. by rewrite Hk.
  - by rewrite Hk.
Qed.

Lemma run_find {B} (coll : string) (q : query)
      (srt : option string) (lim : Z) (f : list document → action B) (s : store) :
  run (find coll q srt lim ≫= f) s
  = match cursor q srt lim (coll_docs s coll) with
    | inl e => (inl e, log_call (CallFind coll) s)
    | inr l => run (f l) (log_call (CallFind coll) s)
    end.
Proof. reflexivity. Qed.

Lemma apply_limit_length (n : Z) (l : list document) :
  (1 ≤ n)%Z → (List.length (apply_limit n l) ≤ Z.to_nat n)%nat.
Proof.
  intros Hn. unfold apply_limit.
  destruct (Z.eqb_spec n 0) as [-> |]; [lia |].
  rewrite length_take, Z.abs_eq by lia. lia.
Qed.

Lemma apply_limit_In (n : Z) (l : list document) (d : document) :
  In d (apply_limit n l) → In d l.
Proof.
  unfold apply_limit. destruct (n =? 0)%Z; [done |].
  intros H. rewrite <- (take_drop (Z.to_nat (Z.abs n)) l).
  apply in_or_app. by left.
Qed.

Lemma ci_contains_empty (t : string) : ci_contains "" t.
Proof. exists [], (map to_lower (list_ascii_of_string t)). reflexivity. Qed.

Lemma title_filter_sound (q : string) (filt : query) (d : document) (t : string) :
  match nonempty (Some q) with
  | None => Some []
  | Some pat =>
      match regex_compile pat with
      | Some r => Some [("title", Regex r true)]
      | None => None
      end
  end = Some filt →
  literal q = true →
  ∀ rest, matches (filt ++ rest) d = true →
          d !! "title" = Some (VStr t) → ci_contains q t.
Proof.
  intros Hfilt Hlit rest Hm Ht.
  destruct q as [|c q]; [apply ci_contains_empty |].
  cbn [nonempty] in Hfilt. rewrite (regex_compile_literal _ Hlit) in Hfilt.
  injection Hfilt as <-.
  unfold matches in Hm. simpl in Hm. apply andb_true_iff in Hm as [Hm _].
  unfold cond_matches in Hm. simpl in Hm. rewrite Ht in Hm. simpl in Hm.
  by apply regex_search_literal.
Qed.

(** C8, as the code has it: when the filter string has no character that is
    special in a pattern and the limit is at least one (and fits a 64-bit
    integer), the listing answers with at most [limit] views, and the title
    of every one of them contains the filter string when case is ignored.
    The limit defaults to fifty.  Titles are ASCII strings. *)
Theorem list_courses_literal (s : store) (q : string)
        (tag : option string) (limit : option Z) :
  literal q = true →
  (1 ≤ default 50 limit < 2 ^ 63)%Z →
  forallb has_ascii_title (coll_docs s "course") = true →
  ∃ views,
    run (get_courses (Some q) tag limit) s
    = (inr views, log_call (CallFind "course") s)
    ∧ (List.length views ≤ Z.to_nat (default 50%Z limit))%nat
    ∧ ∀ v, In v views →
           ∃ view t, v = Some view
                     ∧ view !! "title" = Some (VStr t)
                     ∧ ci_contains q t.
Proof.
  intros Hlit Hn Htitles. unfold get_courses, list_courses.
  set (n := default 50%Z limit) in *.
  destruct (match nonempty (Some q) with
            | None => Some []
            | Some pat =>
                match regex_compile pat with
                | Some r => Some [("title", Regex r true)]
                | None => None
                end
            end) as [filt|] eqn:Hfilt.
  2: { destruct q as [|c q]; [discriminate |]. cbn [nonempty] in Hfilt.
       by rewrite (regex_compile_literal _ Hlit) in Hfilt. }
  set (full := match nonempty tag with
               | Some t => filt ++ [("tags", Eq (VStr t))]
               | None => filt
               end).
  assert (Hfull : ∃ rest, full = filt ++ rest).
  { unfold full. destruct (nonempty tag); [by eexists |].
    exists []. by rewrite app_nil_r. }
  destruct Hfull as [rest Hfull].
  rewrite run_find. unfold cursor.
  assert (Hfits : limit_fits n = true).
  { unfold limit_fits. apply Z.ltb_lt. rewrite Z.abs_eq; lia. }
  rewrite Hfits. cbn [run mret action_ret].
  eexists. split; [reflexivity |]. split.
  - rewrite length_map. apply apply_limit_length. lia.
  - intros v Hv. apply in_map_iff in Hv as (d & <- & Hd).
    apply apply_limit_In in Hd. apply filter_In in Hd as [Hin Hm].
    rewrite forallb_forall in Htitles. specialize (Htitles d Hin).
    unfold has_ascii_title in Htitles.
    destruct (d !! "title") as [[| | t | | |]|] eqn:Ht; try discriminate.
    destruct (view_of_lookup d "title" _ Ht) as (view & Hview & Hlook); [done | done |].
    exists view, t. split_and!; [exact Hview | exact Hlook |].
    rewrite Hfull in Hm. by apply (title_filter_sound q filt d t Hfilt Hlit rest).
Qed.

Lemma list_courses_literal_witness :
  ∃ views,
    run (get_courses (Some "bc") None None) two_courses
    = (inr views, log_call (CallFind "course") two_courses)
    ∧ (List.length views ≤ Z.to_nat (default 50%Z (@None Z)))%nat
    ∧ ∀ v, In v views →
           ∃ view t, v = Some view
                     ∧ view !! "title" = Some (VStr t)
                     ∧ ci_contains "bc" t.
Proof.
  apply (list_courses_literal two_courses "bc" None None).
  - reflexivity.
  - simpl. lia.
  - reflexivity.
Defined.

(** C8, as stated, fails twice.  The filter string is a pattern: [a.c]
    selects the course titled [abc], whose title does not contain [a.c].
    And a limit of zero is no limit: two courses come back. *)
Lemma list_courses_counterexample :
  titles_of (fst (run (list_courses (Some "a.c") None 50) store_abc))
  = Some [Some (VStr "abc")]
  ∧ ¬ ci_contains "a.c" "abc"
  ∧ titles_of (fst (run (list_courses (Some "bc") None 0) two_courses))
    = Some [Some (VStr "abc"); Some (VStr "ABCD")].
Proof.
  split_and!.
  - vm_compute. reflexivity.
  - intros (pre & post & H). simpl in H.
    assert (Hlen := f_equal (@List.length ascii) H).
    rewrite length_app in Hlen. simpl in Hlen.
    destruct pre as [|? pre]; [| simpl in Hlen; lia].
    simpl in H. vm_compute in H. discriminate.
  - vm_compute. reflexivity.
Qed.

(** ** Listing lessons *)

Lemma insert_by_perm (x : Z * document) (l : list (Z * document)) :
  Permutation (insert_by x l) (x :: l).
Proof.
  induction l as [|y l IH]; simpl; [done |].
  destruct (fst x <=? fst y)%Z; [done |].
  rewrite IH. apply perm_swap.
Qed.

Lemma sort_keyed_perm (l : list (Z * document)) : Permutation (sort_keyed l) l.
Proof.
  induction l as [|x l IH]; simpl; [done |].
  rewrite insert_by_perm. by constructor.
Qed.

Lemma insert_by_sorted (x : Z * document) (l : list (Z * document)) :
  StronglySorted keyed_le l → StronglySorted keyed_le (insert_by x l).
Proof.
  induction 1 as [|y l Hs IH Hy]; simpl.
  - repeat constructor.
  - destruct (Z.leb_spec (fst x) (fst y)) as [Hle | Hgt].
    + constructor; [by constructor |].
      constructor; [exact Hle |].
      eapply List.Forall_impl; [| exact Hy].
      intros z Hz. unfold keyed_le in *. lia.
    + constructor; [exact IH |].
      eapply Permutation_Forall; [symmetry; apply insert_by_perm |].
      constructor; [unfold keyed_le; lia | exact Hy].
Qed.

Lemma sort_keyed_sorted (l : list (Z * document)) :
  StronglySorted keyed_le (sort_keyed l).
Proof.
  induction l as [|x l IH]; simpl; [constructor | by apply insert_by_sorted].
Qed.

(** The sort is stable: it keeps the order of the entries of each key. *)
Lemma insert_by_stable (z : Z) (x : Z * document) (l : list (Z * document)) :
  List.filter (fun p => (fst p =? z)%Z) (insert_by x l)
  = List.filter (fun p => (fst p =? z)%Z) (x :: l).
Proof.
  induction l as [|y l IH]; [done |].
  cbn [insert_by].
  destruct (Z.leb_spec (fst x) (fst y)) as [Hle | Hgt]; [done |].
  cbn [List.filter] in *. rewrite IH.
  destruct (Z.eqb_spec (fst x) z), (Z.eqb_spec (fst y) z); try done. lia.
Qed.

Lemma sort_keyed_stable (z : Z) (l : list (Z * document)) :
  List.filter (fun p => (fst p =? z)%Z) (sort_keyed l)
  = List.filter (fun p => (fst p =? z)%Z) l.
Proof.
  induction l as [|x l IH]; [done |].
  cbn [sort_keyed]. rewrite insert_by_stable. cbn [List.filter].
  by rewrite IH.
Qed.

Lemma with_keys_order (docs : list document) :
  forallb has_int_order docs = true →
  with_keys "order" docs = Some (map (fun d => (order_of d, d)) docs).
Proof.
  induction docs as [|d docs IH]; simpl; [done |].
  intros H. apply andb_true_iff in H as [Hd Hrest].
  rewrite (IH Hrest). unfold has_int_order in Hd. unfold order_of.
  by destruct (int_key "order" d).
Qed.

Lemma keyed_filter (z : Z) (l : list (Z * document)) :
  Forall (fun p => fst p = order_of (snd p)) l →
  List.filter (same_order z) (map snd l)
  = map snd (List.filter (fun p => (fst p =? z)%Z) l).
Proof.
  induction 1 as [|p l Hp _ IH]; [done |].
  cbn [map List.filter]. unfold same_order at 1. rewrite <- Hp, IH.
  by destruct (fst p =? z)%Z.
Qed.

Lemma keyed_sorted (l : list (Z * document)) :
  Forall (fun p => fst p = order_of (snd p)) l →
  StronglySorted keyed_le l → StronglySorted ascending (map snd l).
Proof.
  intros Hk Hs. induction Hs as [|p l Hs IH Hp]; simpl; [constructor |].
  inversion Hk as [|? ? Hkp Hkl]; subst.
  constructor; [by apply IH |].
  apply List.Forall_map.
  rewrite List.Forall_forall in Hp, Hkl |- *. intros q Hq.
  specialize (Hp q Hq). specialize (Hkl q Hq).
  unfold keyed_le, ascending in *. lia.
Qed.

Lemma keys_agree (docs : list document) :
  Forall (fun p => fst p = order_of (snd p)) (map (fun d => (order_of d, d)) docs).
Proof. apply List.Forall_map, List.Forall_forall. by intros. Qed.

Lemma map_snd_keyed (docs : list document) :
  map snd (map (fun d => (order_of d, d)) docs) = docs.
Proof. rewrite List.map_map. simpl. apply List.map_id. Qed.

(** C9: the listing of a course returns exactly the lessons of the course,
    in ascending [order], and the lessons of each [order] value come in the
    order in which they were inserted.  The keys are integers, as
    [create_lesson] stores them. *)
Theorem list_lessons_sorted (s : store) (course_id : string) :
  forallb has_int_order (records s "lesson" (lessons_of course_id)) = true →
  ∃ docs,
    run (list_lessons course_id) s
    = (inr (map view_of docs), log_call (CallFind "lesson") s)
    ∧ Permutation docs (records s "lesson" (lessons_of course_id))
    ∧ StronglySorted ascending docs
    ∧ ∀ z, List.filter (same_order z) docs
           = List.filter (same_order z)
               (records s "lesson" (lessons_of course_id)).
Proof.
  intros Hint. unfold list_lessons. rewrite run_find.
  unfold cursor, sort_docs. fold (lessons_of course_id).
  change (limit_fits 0) with true. cbv iota.
  change (List.filter (matches (lessons_of course_id)) (coll_docs s "lesson"))
    with (records s "lesson" (lessons_of course_id)).
  set (found := records s "lesson" (lessons_of course_id)) in *.
  rewrite (with_keys_order _ Hint).
  set (kd := map (fun d => (order_of d, d)) found).
  assert (Hagree : Forall (fun p => fst p = order_of (snd p)) (sort_keyed kd)).
  { eapply Permutation_Forall; [symmetry; apply sort_keyed_perm |].
    apply keys_agree. }
  exists (map snd (sort_keyed kd)). split_and!.
  - reflexivity.
  - rewrite (sort_keyed_perm kd). unfold kd. by rewrite map_snd_keyed.
  - apply (keyed_sorted _ Hagree), sort_keyed_sorted.
  - intros z. rewrite (keyed_filter z _ Hagree), sort_keyed_stable.
    rewrite <- (keyed_filter z kd (keys_agree _)). unfold kd.
    by rewrite map_snd_keyed.
Qed.

Lemma list_lessons_sorted_witness :
  ∃ docs,
    run (list_lessons "c1") four_lessons
    = (inr (map view_of docs), log_call (CallFind "lesson") four_lessons)
    ∧ Permutation docs (records four_lessons "lesson" (lessons_of "c1"))
    ∧ StronglySorted ascending docs
    ∧ ∀ z, List.filter (same_order z) docs
           = List.filter (same_order z)
               (records four_lessons "lesson" (lessons_of "c1")).
Proof.
  apply (list_lessons_sorted four_lessons "c1").
  reflexivity.
Defined.

(** Lessons [B] and [D] were created in this order after [A] and [C] with a
    smaller [order]; the listing moves them to the front and keeps each pair
    as it was created.  The lesson of the other course is left out. *)
Example list_lessons_four :
  map (fun d => (d !! "title", d !! "order")) (coll_docs four_lessons "lesson")
  = [(Some (VStr "A"), Some (VInt 2)); (Some (VStr "B"), Some (VInt 1));
     (Some (VStr "Z"), Some (VInt 1));
     (Some (VStr "C"), Some (VInt 2)); (Some (VStr "D"), Some (VInt 1))]
  ∧ titles_of (fst (run (list_lessons "c1") four_lessons))
    = Some [Some (VStr "B"); Some (VStr "D"); Some (VStr "A"); Some (VStr "C")].
Proof. split; vm_compute; reflexivity. Qed.

(** Two lessons of the same [order], created [A] then [B], are listed [A]
    then [B]. *)
Example list_lessons_equal_order :
  titles_of (fst (run (list_lessons "c1") two_lessons))
  = Some [Some (VStr "A"); Some (VStr "B")].
Proof. vm_compute. reflexivity. Qed.

(** ** Two requests in flight *)

(** Served one after the other, two enrollments of the same pair leave one
    record and carry the same [id]. *)
Example enroll_one_by_one :
  race_report "enrollment" (enrollment_key "c1" "u2")
    (interleave one_by_one
       (enroll sample_enrollment) (enroll sample_enrollment) empty_store)
  = (Some [Some (VStr "000000000000000000000000")],
     Some [Some (VStr "000000000000000000000000")], 1%nat).
Proof. vm_compute. reflexivity. Qed.

(** C3 on the code: when both lookups are served before either write, each
    of the two [enroll] calls creates a record of its own and answers with
    its own [id], and two enrollments of the pair are stored; the same holds
    of two [submit] calls. *)
Theorem race_leaves_duplicates :
  race_report "enrollment" (enrollment_key "c1" "u2")
    (interleave racing
       (enroll sample_enrollment) (enroll sample_enrollment) empty_store)
  = (Some [Some (VStr "000000000000000000000000")],
     Some [Some (VStr "000000000000000000000001")], 2%nat)
  ∧ race_report "submission" (submission_key "a1" "u2")
      (interleave racing
         (submit first_submission) (submit second_submission) empty_store)
    = (Some [Some (VStr "000000000000000000000000")],
       Some [Some (VStr "000000000000000000000001")], 2%nat).
Proof. split; vm_compute; reflexivity. Qed.

(** Running a request alone is serving its storage calls one by one. *)
Lemma run_step {A} (a : action A) (s : store) :
  run a s = run (fst (step a s)) (snd (step a s)).
Proof.
  destruct a as [x|e|c q k|c q srt lim k|c d k|c q u k]; simpl; try reflexivity.
  by destruct (cursor q srt lim (coll_docs s c)).
Qed.

(** * Further properties of the handlers *)

(** ** [serialize] *)

Lemma render_value_idempotent (v : value) :
  render_value (render_value v) = render_value v.
Proof. by destruct v. Qed.

(** X1: serializing a view again changes nothing, and a view never carries
    the internal [_id] field. *)
Theorem serialize_idempotent (doc : option document) :
  serialize (serialize doc) = serialize doc
  ∧ ∀ view, serialize doc = Some view → view !! "_id" = None.
Proof.
  destruct doc as [d|]; [| split; [done | discriminate]].
  destruct (decide (d = ∅)) as [-> | Hne].
  { assert (Hs : serialize (Some (∅ : document)) = Some ∅) by done.
    rewrite !Hs. split; [done |].
    intros view Hv. injection Hv as <-. apply lookup_empty. }
  set (d1 := match d !! "_id" with
             | Some i => <["id" := VStr (py_str i)]> (delete "_id" d)
             | None => d
             end).
  assert (Hs : serialize (Some d) = Some (render_value <$> d1)).
  { unfold serialize. by rewrite decide_False. }
  assert (Hid : (render_value <$> d1) !! "_id" = None).
  { rewrite lookup_fmap. unfold d1. destruct (d !! "_id") eqn:Hd.
    - rewrite lookup_insert_ne by done. by rewrite lookup_delete_eq.
    - by rewrite Hd. }
  rewrite Hs. split.
  - unfold serialize.
    destruct (decide (render_value <$> d1 = ∅)); [done |].
    rewrite Hid. f_equal.
    rewrite <- map_fmap_compose. apply map_fmap_ext.
    intros k v _. apply render_value_idempotent.
  - intros view Hv. by injection Hv as <-.
Qed.

(** [str] of a list writes its elements as [repr] does. *)
Example str_of_list :
  py_str (VList [VNull; VInt (-5); VStr "a\b"; VStr (String "009" "");
                 VOid 10%N;
                 VDate due_2025; VDate (mk_datetime 2025 1 31 23 59 30 0);
                 VList []])
  = "[None, -5, 'a\\b', '\t', ObjectId('00000000000000000000000a'), "
    +:+ "datetime.datetime(2025, 1, 31, 23, 59), "
    +:+ "datetime.datetime(2025, 1, 31, 23, 59, 30), []]".
Proof. vm_compute. reflexivity. Qed.

(** ** [oid] *)

(** X2: [oid] answers without touching the store.  It either returns an
    identifier, for an argument of twenty-four characters, whose string form
    is the hexadecimal digits of the argument in lower case; or it raises
    400 [Invalid id format], and then the argument is not a well-formed
    token.  The identifier returned is one of twelve bytes exactly when the
    argument is a well-formed token, and then its string form is the whole
    argument in lower case. *)
Theorem oid_outcome (id_str : string) (s : store) :
  (∃ o, run (oid id_str) s = (inr o, s)
        ∧ String.length id_str = 24%nat
        ∧ forallb is_hex (list_ascii_of_string (strip_space id_str)) = true
        ∧ str_oid o = lower_string (strip_space id_str)
        ∧ (well_formed_id id_str = true
           → (o < oid_bound)%N ∧ str_oid o = lower_string id_str)
        ∧ (well_formed_id id_str = false
           → (oid_bound ≤ o)%N ∧ has_space id_str = true))
  ∨ (run (oid id_str) s = (inl (HTTPException 400 "Invalid id format"), s)
     ∧ well_formed_id id_str = false).
Proof.
  unfold oid. destruct (ObjectId_of_str id_str) as [o|] eqn:Ho.
  - left. exists o.
    destruct (ObjectId_of_str_accepts id_str o Ho) as (Hlen & Hhex & Hstr & Hiff).
    split_and!; [reflexivity | exact Hlen | exact Hhex | exact Hstr | |].
    + intros Hwf.
      apply ObjectId_of_str_well_formed in Hwf as (o' & Ho' & Hlt).
      assert (o' = o) as -> by congruence.
      split; [exact Hlt |].
      rewrite Hstr. f_equal. by apply strip_space_none, Hiff.
    + intros Hwf.
      assert (Hge : (oid_bound ≤ o)%N).
      { destruct (N.lt_ge_cases o oid_bound) as [Hlt | Hge]; [| exact Hge].
        assert (well_formed_id id_str = true); [| congruence].
        apply ObjectId_of_str_well_formed. by exists o. }
      split; [exact Hge |].
      destruct (has_space id_str); [done |].
      pose proof (proj2 Hiff eq_refl). lia.
  - right. split; [reflexivity |].
    destruct (well_formed_id id_str) eqn:Hwf; [| done].
    apply ObjectId_of_str_well_formed in Hwf as (o & Hsome & _). congruence.
Qed.

(** The two kinds of identifier [oid] returns, and a refusal. *)
Example oid_samples :
  (str_oid <$> ObjectId_of_str "0123456789ABCDEF01234567")
  = Some "0123456789abcdef01234567"
  ∧ (str_oid <$> ObjectId_of_str "00 0a 00 00 00 00 00 Ff ")
    = Some "000a0000000000ff"
  ∧ (str_oid <$> ObjectId_of_str "                        ") = Some ""
  ∧ fst (run (oid "0123456789abcdef0123456g") empty_store)
    = inl (HTTPException 400 "Invalid id format").
Proof. split_and!; vm_compute; reflexivity. Qed.



(** ** Reading a course that is stored *)

Lemma encode_course (c : CourseIn.t) :
  encode Course (CourseIn.model_dump c) = inr (CourseIn.model_dump c).
Proof. reflexivity. Qed.

Lemma find_stored_by_id (bound : N) (docs : list document) (d : document)
      (o : ObjectId) :
  coll_ok bound docs → In d docs → d !! "_id" = Some (VOid o) →
  find_one_in [("_id", Eq (VOid o))] docs = Some d.
Proof.
  intros Hok Hin Hd.
  apply in_split in Hin as (before & after & ->).
  apply find_split.
  - by apply (id_unmatched_before bound o before after d).
  - rewrite (matches_id _ _ _ Hd). apply N.eqb_refl.
Qed.

(** X4: on a well-formed store, [get_course] on the string form of the
    identifier of a stored course answers with the view of that course,
    whose [id] is the string asked for, after one lookup. *)
Theorem get_course_found (s : store) (d : document)
        (o : ObjectId) :
  ids_okb s = true →
  (o < oid_bound)%N →
  In d (coll_docs s "course") →
  d !! "_id" = Some (VOid o) →
  ∃ view,
    run (get_course (str_oid o)) s
    = (inr (Some view), log_call (CallFindOne "course") s)
    ∧ view_of d = Some view
    ∧ view !! "id" = Some (VStr (str_oid o)).
Proof.
  intros Hok Ho Hin Hd.
  destruct (view_of_id d o Hd) as (view & Hview & Hid & _).
  exists view. split_and!; [| exact Hview | exact Hid].
  unfold get_course, oid. rewrite (ObjectId_roundtrip o Ho).
  cbn [mbind action_bind bind]. rewrite run_find_one.
  rewrite (find_stored_by_id _ _ d o (ids_okb_sound s "course" Hok) Hin Hd).
  assert (Ht : truthy (Some d) = true).
  { unfold truthy. destruct (decide (d = ∅)) as [-> |]; [| done].
    by rewrite lookup_empty in Hd. }
  rewrite Ht. cbn [run mret action_ret]. by rewrite <- Hview.
Qed.

Lemma get_course_found_witness :
  ∃ view,
    run (get_course (str_oid 0%N)) store_abc
    = (inr (Some view), log_call (CallFindOne "course") store_abc)
    ∧ view_of (<["_id" := VOid 0%N]> (CourseIn.model_dump course_abc)) = Some view
    ∧ view !! "id" = Some (VStr (str_oid 0%N)).
Proof.
  apply (get_course_found store_abc
           (<["_id" := VOid 0%N]> (CourseIn.model_dump course_abc)) 0%N).
  - reflexivity.
  - reflexivity.
  - left. reflexivity.
  - reflexivity.
Defined.

(** X5: a course that [create_course] has just created is read back by
    [get_course] under the [id] of the returned view, as the same view. *)
Theorem create_course_then_get (course : CourseIn.t)
        (s : store) :
  ids_okb s = true →
  (next_oid s < oid_bound)%N →
  ∃ (view : document) (id : string) (s1 : store),
    run (create_course course) s = (inr (Some view), s1)
    ∧ view !! "id" = Some (VStr id)
    ∧ run (get_course id) s1
      = (inr (Some view), log_call (CallFindOne "course") s1).
Proof.
  intros Hok Hb.
  set (d := <["_id" := VOid (next_oid s)]> (CourseIn.model_dump course)).
  set (s1 := log_call (CallFindOne "course")
               (persist "course" (CourseIn.model_dump course) s)).
  assert (Hd : d !! "_id" = Some (VOid (next_oid s))) by apply lookup_insert_eq.
  destruct (view_of_id d _ Hd) as (view & Hview & Hid & _).
  exists view, (str_oid (next_oid s)), s1. split_and!; [| exact Hid |].
  - unfold create_course.
    rewrite (run_create_and_fetch "course" Course _ _ s eq_refl
               (encode_course course) (ids_okb_sound s "course" Hok) Hb).
    fold d. fold s1. by rewrite Hview.
  - unfold get_course, oid. rewrite (ObjectId_roundtrip _ Hb).
    cbn [mbind action_bind bind]. rewrite run_find_one.
    assert (Hdocs : coll_docs s1 "course" = coll_docs s "course" ++ [d]).
    { unfold s1. by rewrite coll_docs_log, coll_docs_persist. }
    rewrite Hdocs.
    rewrite (find_split _ (coll_docs s "course") [] d).
    + assert (Ht : truthy (Some d) = true).
      { unfold truthy. destruct (decide (d = ∅)) as [Hem |]; [| done].
        rewrite Hem in Hd. by rewrite lookup_empty in Hd. }
      rewrite Ht. cbn [run mret action_ret]. fold (view_of d). by rewrite Hview.
    + eapply fresh_id_unmatched; [apply (ids_okb_sound s "course" Hok) | lia].
    + rewrite (matches_id _ _ _ Hd). apply N.eqb_refl.
Qed.

Lemma create_course_then_get_witness :
  ∃ (view : document) (id : string) (s1 : store),
    run (create_course intro_course) graded_store
    = (inr (Some view), s1)
    ∧ view !! "id" = Some (VStr id)
    ∧ run (get_course id) s1
      = (inr (Some view), log_call (CallFindOne "course") s1).
Proof.
  apply (create_course_then_get intro_course graded_store).
  - reflexivity.
  - reflexivity.
Defined.

(** ** The read handlers never write *)

Lemma reads_only_leaves {A} (a : action A) (s : store) :
  reads_only a → leaves_store a s.
Proof.
  revert s. induction a as [x|e|c q k IH|c q srt lim k IH|c d k IH|c q u k IH];
    intros s Hro.
  - by split.
  - by split.
  - apply (IH _ (log_call (CallFindOne c) s) (Hro _)).
  - unfold leaves_store. cbn [run].
    destruct (cursor q srt lim (coll_docs s c)) as [e|l]; [by split |].
    apply (IH _ (log_call (CallFind c) s) (Hro _)).
  - destruct Hro.
  - destruct Hro.
Qed.

Lemma listing_reads_only (coll : string) (q : query) (srt : option string)
      (lim : Z) :
  reads_only (docs ← find coll q srt lim;
              mret (map (fun d => serialize (Some d)) docs)).
Proof. intros r. exact I. Qed.

(** X6: none of the six read handlers changes a collection or uses up an
    identifier, whatever its arguments and whatever it answers. *)
Theorem read_handlers_leave_store (s : store) :
  (∀ course_id, leaves_store (get_course course_id) s)
  ∧ (∀ q tag limit, leaves_store (list_courses q tag limit) s)
  ∧ (∀ course_id, leaves_store (list_lessons course_id) s)
  ∧ (∀ user_id, leaves_store (user_enrollments user_id) s)
  ∧ (∀ course_id, leaves_store (list_assignments course_id) s)
  ∧ (∀ assignment_id, leaves_store (list_submissions assignment_id) s).
Proof.
  split_and!; intros; apply reads_only_leaves.
  - unfold get_course, oid. destruct (ObjectId_of_str course_id); [| exact I].
    intros r. cbn. by destruct (truthy r).
  - unfold list_courses.
    destruct (match nonempty q with
              | Some pat =>
                  match regex_compile pat with
                  | Some r => Some [("title", Regex r true)]
                  | None => None
                  end
              | None => Some []
              end); [| exact I].
    apply listing_reads_only.
  - apply listing_reads_only.
  - apply listing_reads_only.
  - apply listing_reads_only.
  - apply listing_reads_only.
Qed.

(** ** What was written is listed *)

Lemma run_listing (coll : string) (q : query) (s : store) :
  run (docs ← find coll q None 0;
           mret (map (fun d => serialize (Some d)) docs)) s
  = (inr (map view_of (records s coll q)), log_call (CallFind coll) s).
Proof. reflexivity. Qed.

Lemma matches_single (f x : string) (d : document) :
  d !! f = Some (VStr x) → matches [(f, Eq (VStr x))] d = true.
Proof.
  intros H. unfold matches, cond_matches. simpl. rewrite H. simpl.
  by rewrite String.eqb_refl.
Qed.

Lemma matches_pair_fst (f g : string) (u v : cond) (d : document) :
  matches [(f, u); (g, v)] d = true → matches [(f, u)] d = true.
Proof.
  rewrite !matches_cons. intros H. apply andb_true_iff in H as [H _].
  by rewrite H.
Qed.

Lemma matches_pair_snd (f g : string) (u v : cond) (d : document) :
  matches [(f, u); (g, v)] d = true → matches [(g, v)] d = true.
Proof.
  rewrite !matches_cons. intros H. apply andb_true_iff in H as [_ H].
  exact H.
Qed.

Lemma stored_has_view (bound : N) (docs : list document) (d : document) :
  coll_ok bound docs → In d docs →
  ∃ o view, d !! "_id" = Some (VOid o) ∧ view_of d = Some view.
Proof.
  intros [Hall _] Hin. rewrite List.Forall_forall in Hall.
  destruct (Hall d Hin) as (o & Hd & _).
  destruct (view_of_id d o Hd) as (view & Hview & _).
  by exists o, view.
Qed.

Lemma created_enrollment_user (enr : EnrollmentIn.t) (o : ObjectId) :
  (<["_id" := VOid o]> (EnrollmentIn.model_dump enr)) !! "user_id"
  = Some (VStr (EnrollmentIn.user_id enr)).
Proof. unfold EnrollmentIn.model_dump. by simplify_map_eq. Qed.

Lemma created_submission_fields (item : SubmissionIn.t) (o : ObjectId) :
  let d := <["_id" := VOid o]>
             (<["feedback" := VNull]>
                (<["grade" := VNull]> (SubmissionIn.model_dump item))) in
  d !! "assignment_id" = Some (VStr (SubmissionIn.assignment_id item))
  ∧ d !! "content" = Some (opt_str (SubmissionIn.content item)).
Proof. unfold SubmissionIn.model_dump. split; by simplify_map_eq. Qed.

(** X7: after an [enroll] call on a well-formed store, the enrollments
    listed for the user of the call include the view the call returned,
    whether the call created the enrollment or found it. *)
Theorem enroll_then_listed (enr : EnrollmentIn.t) (s : store) :
  ids_okb s = true →
  (next_oid s < oid_bound)%N →
  ∃ (view : document) (s1 : store) (views : list (option document)),
    run (enroll enr) s = (inr (Some view), s1)
    ∧ run (user_enrollments (EnrollmentIn.user_id enr)) s1
      = (inr views, log_call (CallFind "enrollment") s1)
    ∧ In (Some view) views.
Proof.
  intros Hok Hb.
  pose proof (ids_okb_sound s "enrollment" Hok) as Hcoll.
  set (key := enrollment_key (EnrollmentIn.course_id enr) (EnrollmentIn.user_id enr)).
  set (byuser := [("user_id", Eq (VStr (EnrollmentIn.user_id enr)))]).
  destruct (find_one_in key (coll_docs s "enrollment")) as [d|] eqn:Hf.
  - destruct (find_one_in_split _ _ _ Hf) as (before & after & Hdocs & Hm & _).
    assert (Hin : In d (coll_docs s "enrollment")).
    { rewrite Hdocs. apply in_or_app. right. by left. }
    destruct (stored_has_view _ _ d Hcoll Hin) as (o & view & Hd & Hview).
    exists view, (log_call (CallFindOne "enrollment") s),
      (map view_of (records (log_call (CallFindOne "enrollment") s)
                            "enrollment" byuser)).
    split_and!.
    + rewrite (run_enroll_existing enr s d Hf). by rewrite Hview.
    + apply run_listing.
    + rewrite <- Hview. apply in_map. apply filter_In. split; [exact Hin |].
      apply (matches_pair_snd _ _ _ _ _ Hm).
  - set (d := <["_id" := VOid (next_oid s)]> (EnrollmentIn.model_dump enr)).
    set (s1 := log_call (CallFindOne "enrollment")
                 (persist "enrollment" (EnrollmentIn.model_dump enr)
                    (log_call (CallFindOne "enrollment") s))).
    assert (Hd : d !! "_id" = Some (VOid (next_oid s))) by apply lookup_insert_eq.
    destruct (view_of_id d _ Hd) as (view & Hview & _).
    exists view, s1, (map view_of (records s1 "enrollment" byuser)).
    split_and!.
    + rewrite (run_enroll_fresh enr s Hf Hcoll Hb). fold d. fold s1.
      by rewrite Hview.
    + apply run_listing.
    + rewrite <- Hview. apply in_map. apply filter_In. split.
      * unfold s1. rewrite coll_docs_log, coll_docs_persist.
        apply in_or_app. right. by left.
      * apply matches_single. apply created_enrollment_user.
Qed.

Lemma enroll_then_listed_witness :
  ∃ (view : document) (s1 : store) (views : list (option document)),
    run (enroll sample_enrollment) graded_store
    = (inr (Some view), s1)
    ∧ run
        (user_enrollments (EnrollmentIn.user_id sample_enrollment)) s1
      = (inr views, log_call (CallFind "enrollment") s1)
    ∧ In (Some view) views.
Proof.
  apply (enroll_then_listed sample_enrollment graded_store).
  - reflexivity.
  - reflexivity.
Defined.

(** X8: after a [submit] call on a well-formed store, the submissions listed
    for the assignment of the call include the view the call returned,
    whether the call created the submission or overwrote it. *)
Theorem submit_then_listed (item : SubmissionIn.t) (s : store) :
  ids_okb s = true →
  (next_oid s < oid_bound)%N →
  ∃ (view : document) (s1 : store) (views : list (option document)),
    run (submit item) s = (inr (Some view), s1)
    ∧ run (list_submissions (SubmissionIn.assignment_id item)) s1
      = (inr views, log_call (CallFind "submission") s1)
    ∧ In (Some view) views
    ∧ view !! "content" = Some (opt_str (SubmissionIn.content item)).
Proof.
  intros Hok Hb.
  pose proof (ids_okb_sound s "submission" Hok) as Hcoll.
  set (key := submission_key (SubmissionIn.assignment_id item)
                             (SubmissionIn.user_id item)).
  set (byasg := [("assignment_id", Eq (VStr (SubmissionIn.assignment_id item)))]).
  destruct (find_one_in key (coll_docs s "submission")) as [d|] eqn:Hf.
  - destruct (submit_on_existing item s d Hok Hf)
      as (before & after & Hdocs & Hbefore & Hm & Hrun).
    set (new := SubmissionIn.model_dump item ∪ d) in *.
    assert (Hin : In d (coll_docs s "submission")).
    { rewrite Hdocs. apply in_or_app. right. by left. }
    destruct (stored_has_view _ _ d Hcoll Hin) as (o & _ & Hd & _).
    assert (Hnew : new !! "_id" = Some (VOid o)).
    { unfold new. by rewrite lookup_union_r by apply dump_submission_id. }
    destruct (union_dump_key item d) as (Ka & _ & Kc).
    destruct (view_of_lookup new "content" _ Kc) as (view & Hview & Hc);
      [done | done |].
    exists view, (resubmitted before after new s),
      (map view_of (records (resubmitted before after new s) "submission" byasg)).
    split_and!.
    + rewrite Hrun. by rewrite Hview.
    + apply run_listing.
    + rewrite <- Hview. apply in_map. apply filter_In. split.
      * rewrite coll_docs_resubmitted. apply in_or_app. right. by left.
      * by apply matches_single.
    + rewrite Hc. by destruct (SubmissionIn.content item).
  - set (doc := <["feedback" := VNull]>
                  (<["grade" := VNull]> (SubmissionIn.model_dump item))).
    set (d := <["_id" := VOid (next_oid s)]> doc).
    set (s1 := log_call (CallFindOne "submission")
                 (persist "submission" doc (log_call (CallFindOne "submission") s))).
    destruct (created_submission_fields item (next_oid s)) as [Ka Kc].
    fold doc in Ka, Kc. fold d in Ka, Kc.
    destruct (view_of_lookup d "content" _ Kc) as (view & Hview & Hc);
      [done | done |].
    exists view, s1, (map view_of (records s1 "submission" byasg)).
    split_and!.
    + pose proof (run_submit_fresh item s) as Hrun. cbv zeta in Hrun.
      rewrite (Hrun Hf Hcoll Hb). fold doc. fold d. fold s1. by rewrite Hview.
    + apply run_listing.
    + rewrite <- Hview. apply in_map. apply filter_In. split.
      * unfold s1. rewrite coll_docs_log, coll_docs_persist.
        apply in_or_app. right. by left.
      * apply matches_single. exact Ka.
    + rewrite Hc. by destruct (SubmissionIn.content item).
Qed.

Lemma submit_then_listed_witness :
  ∃ (view : document) (s1 : store) (views : list (option document)),
    run (submit second_submission) graded_store
    = (inr (Some view), s1)
    ∧ run
        (list_submissions (SubmissionIn.assignment_id second_submission)) s1
      = (inr views, log_call (CallFind "submission") s1)
    ∧ In (Some view) views
    ∧ view !! "content" = Some (opt_str (SubmissionIn.content second_submission)).
Proof.
  apply (submit_then_listed second_submission graded_store).
  - reflexivity.
  - reflexivity.
Defined.

(** ** The dedup rules as invariants *)

Lemma create_and_fetch_docs (coll : string)
      (fields : list field_def) (data doc : document) (s : store) (c : string) :
  describe coll = Some fields →
  encode fields data = inr doc →
  coll_docs (snd (run (create_and_fetch coll data) s)) c
  = coll_docs (persist coll doc s) c.
Proof.
  intros Hk He. unfold create_and_fetch.
  change (run (create_document coll data ≫= ?f) s)
    with (run (bind (create_document coll data) f) s).
  rewrite run_bind, (run_create_document _ _ _ _ _ Hk He).
  unfold to_ObjectId. by destruct (ObjectId_of_str (str_oid (next_oid s))).
Qed.

Lemma filter_one_more (q : query) (docs : list document) (d : document) :
  List.length (List.filter (matches q) (docs ++ [d]))
  = (List.length (List.filter (matches q) docs)
     + (if matches q d then 1 else 0))%nat.
Proof.
  rewrite List.filter_app, length_app. simpl. by destruct (matches q d).
Qed.

Lemma filter_replaced (q : query) (before after : list document)
      (d new : document) :
  (matches q new = true → matches q d = true) →
  (List.length (List.filter (matches q) (before ++ new :: after))
   ≤ List.length (List.filter (matches q) (before ++ d :: after)))%nat.
Proof.
  intros Himp. rewrite !List.filter_app, !length_app. simpl.
  destruct (matches q new); [rewrite Himp by done |]; simpl;
    destruct (matches q d); simpl; lia.
Qed.

Lemma key_of_matching (f g a u a' u' : string) (d : document) :
  d !! f = Some (VStr a) → d !! g = Some (VStr u) →
  matches [(f, Eq (VStr a')); (g, Eq (VStr u'))] d = true →
  a' = a ∧ u' = u.
Proof.
  intros Hf Hg Hm. destruct (matches_pair_inv _ _ _ _ _ Hm) as [H1 H2].
  split; symmetry; [by apply H1 | by apply H2].
Qed.

Lemma created_enrollment_key (enr : EnrollmentIn.t) (o : ObjectId) :
  let d := <["_id" := VOid o]> (EnrollmentIn.model_dump enr) in
  d !! "course_id" = Some (VStr (EnrollmentIn.course_id enr))
  ∧ d !! "user_id" = Some (VStr (EnrollmentIn.user_id enr)).
Proof. unfold EnrollmentIn.model_dump. split; by simplify_map_eq. Qed.

Lemma created_submission_key (item : SubmissionIn.t) (o : ObjectId) :
  let d := <["_id" := VOid o]>
             (<["feedback" := VNull]>
                (<["grade" := VNull]> (SubmissionIn.model_dump item))) in
  d !! "assignment_id" = Some (VStr (SubmissionIn.assignment_id item))
  ∧ d !! "user_id" = Some (VStr (SubmissionIn.user_id item)).
Proof. unfold SubmissionIn.model_dump. split; by simplify_map_eq. Qed.

(** X9: [enroll] keeps the rule that no course and user have two
    enrollments: on a store where it holds, it holds after the call, for
    every pair. *)
Theorem enroll_keeps_unique (enr : EnrollmentIn.t) (s : store) :
  unique_enrollments s →
  unique_enrollments (snd (run (enroll enr) s)).
Proof.
  intros Huniq c u. unfold records.
  set (key := enrollment_key (EnrollmentIn.course_id enr) (EnrollmentIn.user_id enr)).
  destruct (find_one_in key (coll_docs s "enrollment")) as [d|] eqn:Hf.
  - rewrite (run_enroll_existing enr s d Hf). apply (Huniq c u).
  - unfold enroll. rewrite run_find_one.
    pose proof Hf as Hf'. unfold key, enrollment_key in Hf'.
    rewrite Hf'. cbn [truthy].
    rewrite (create_and_fetch_docs "enrollment" Enrollment _ _ _ _ eq_refl
               (encode_enrollment enr)).
    rewrite coll_docs_persist, coll_docs_log, filter_one_more.
    set (d := <["_id" := VOid (next_oid (log_call (CallFindOne "enrollment") s))]>
                (EnrollmentIn.model_dump enr)).
    destruct (matches (enrollment_key c u) d) eqn:Hm; [| specialize (Huniq c u);
      unfold records in Huniq; lia].
    destruct (created_enrollment_key enr
                (next_oid (log_call (CallFindOne "enrollment") s))) as [Kc Ku].
    destruct (key_of_matching _ _ _ _ _ _ _ Kc Ku Hm) as [-> ->].
    apply find_one_in_none in Hf. fold key.
    rewrite (filter_unmatched _ _ Hf). simpl. lia.
Qed.

Lemma enroll_keeps_unique_witness :
  unique_enrollments (snd (run (enroll sample_enrollment) empty_store)).
Proof.
  apply (enroll_keeps_unique sample_enrollment empty_store).
  intros c u. vm_compute. lia.
Defined.

(** X10: [submit] keeps the rule that no assignment and user have two
    submissions: on a well-formed store where it holds, it holds after the
    call, for every pair. *)
Theorem submit_keeps_unique (item : SubmissionIn.t) (s : store) :
  ids_okb s = true →
  unique_submissions s →
  unique_submissions (snd (run (submit item) s)).
Proof.
  intros Hok Huniq a u. unfold records.
  set (key := submission_key (SubmissionIn.assignment_id item)
                             (SubmissionIn.user_id item)).
  destruct (find_one_in key (coll_docs s "submission")) as [d|] eqn:Hf.
  - destruct (submit_on_existing item s d Hok Hf)
      as (before & after & Hdocs & Hbefore & Hm & Hrun).
    rewrite Hrun. cbn [snd]. rewrite coll_docs_resubmitted.
    specialize (Huniq a u). unfold records in Huniq. rewrite Hdocs in Huniq.
    etransitivity; [| exact Huniq].
    apply filter_replaced. intros Hnew.
    destruct (union_dump_key item d) as (Ka & Ku & _).
    destruct (key_of_matching _ _ _ _ _ _ _ Ka Ku Hnew) as [-> ->].
    exact Hm.
  - unfold submit. rewrite run_find_one.
    pose proof Hf as Hf'. unfold key, submission_key in Hf'.
    rewrite Hf'. cbn [truthy].
    rewrite (create_and_fetch_docs "submission" Submission _ _ _ _ eq_refl
               (encode_submission item)).
    rewrite coll_docs_persist, coll_docs_log, filter_one_more.
    set (d := <["_id" := VOid (next_oid (log_call (CallFindOne "submission") s))]>
                (<["feedback" := VNull]>
                   (<["grade" := VNull]> (SubmissionIn.model_dump item)))).
    destruct (matches (submission_key a u) d) eqn:Hm; [| specialize (Huniq a u);
      unfold records in Huniq; lia].
    destruct (created_submission_key item
                (next_oid (log_call (CallFindOne "submission") s))) as [Ka Ku].
    destruct (key_of_matching _ _ _ _ _ _ _ Ka Ku Hm) as [-> ->].
    apply find_one_in_none in Hf. fold key.
    rewrite (filter_unmatched _ _ Hf). simpl. lia.
Qed.

Lemma submit_keeps_unique_witness :
  unique_submissions (snd (run (submit first_submission) empty_store)).
Proof.
  apply (submit_keeps_unique first_submission empty_store).
  - reflexivity.
  - intros a u. vm_compute. lia.
Defined.

(** ** Well-formedness as an invariant *)

Lemma coll_ok_same_ids (bound : N) (docs docs' : list document) :
  map (fun d => d !! "_id") docs' = map (fun d => d !! "_id") docs →
  coll_ok bound docs → coll_ok bound docs'.
Proof.
  intros Hids [Hall Hnd]. split.
  - apply (List.Forall_map (fun d : document => d !! "_id")
             (fun i => ∃ o, i = Some (VOid o) ∧ (o < bound)%N)).
    rewrite Hids. by apply List.Forall_map.
  - assert (Hoid : ∀ l : list document,
               map doc_oid l
               = map (fun i => match i with Some (VOid o) => Some o | _ => None end)
                     (map (fun d => d !! "_id") l)).
    { intros l. rewrite List.map_map. reflexivity. }
    rewrite Hoid, Hids, <- Hoid. exact Hnd.
Qed.

Lemma update_first_ids (q : query) (upd : document) (docs : list document) :
  upd !! "_id" = None →
  map (fun d => d !! "_id") (update_first q upd docs)
  = map (fun d => d !! "_id") docs.
Proof.
  intros Hupd. induction docs as [|d docs IH]; [done |].
  cbn [update_first]. destruct (matches q d).
  - cbn [map]. by rewrite lookup_union_r.
  - cbn [map]. by rewrite IH.
Qed.

Lemma ids_ok_log (c : db_call) (s : store) : ids_ok s → ids_ok (log_call c s).
Proof. intros H coll. apply H. Qed.

Lemma ids_ok_persist (coll : string) (doc : document) (s : store) :
  ids_ok s → ids_ok (persist coll doc s).
Proof.
  intros H c. change (next_oid (persist coll doc s)) with (next_oid s + 1)%N.
  destruct (decide (coll = c)) as [<- | Hne].
  - rewrite coll_docs_persist. apply coll_ok_persist, H.
  - rewrite coll_docs_persist_ne by done.
    apply (coll_ok_weaken (next_oid s)); [lia | apply H].
Qed.

Lemma ids_ok_update (coll : string) (q : query) (upd : document) (s : store) :
  upd !! "_id" = None →
  ids_ok s → ids_ok (set_docs coll (update_first q upd (coll_docs s coll)) s).
Proof.
  intros Hupd H c. change (next_oid (set_docs _ _ s)) with (next_oid s).
  destruct (decide (coll = c)) as [<- | Hne].
  - rewrite coll_docs_set.
    apply (coll_ok_same_ids _ (coll_docs s coll)); [| apply H].
    by apply update_first_ids.
  - unfold coll_docs, set_docs. simpl. rewrite lookup_insert_ne by done.
    apply H.
Qed.

Lemma keeps_ids_run {A} (a : action A) (s : store) :
  keeps_ids a → ids_ok s → ids_ok (snd (run a s)).
Proof.
  revert s. induction a as [x|e|c q k IH|c q srt lim k IH|c d k IH|c q u k IH];
    intros s Hk Hs; cbn [run].
  - exact Hs.
  - exact Hs.
  - apply IH; [apply Hk | by apply ids_ok_log].
  - destruct (cursor q srt lim (coll_docs s c)) as [e|l].
    + by apply ids_ok_log.
    + apply IH; [apply Hk | by apply ids_ok_log].
  - apply IH; [apply Hk | by apply ids_ok_persist].
  - destruct Hk as [Hu Hk].
    apply IH; [exact Hk |]. by apply ids_ok_log, ids_ok_update.
Qed.

Lemma to_ObjectId_keeps_ids {B} (id : string) (f : ObjectId → action B) :
  (∀ o, keeps_ids (f o)) → keeps_ids (to_ObjectId id ≫= f).
Proof.
  intros Hf. unfold to_ObjectId.
  destruct (ObjectId_of_str id) as [o|]; [apply Hf | exact I].
Qed.

Lemma create_and_fetch_keeps_ids (coll : string) (data : document) :
  keeps_ids (create_and_fetch coll data).
Proof.
  unfold create_and_fetch, create_document.
  destruct (describe coll) as [fields|]; [| exact I].
  destruct (encode fields data) as [[f why]|doc]; [exact I |].
  intros o. apply (to_ObjectId_keeps_ids (str_oid o)).
  intros o' r. exact I.
Qed.

Lemma find_one_keeps_ids {B} (coll : string) (q : query)
      (f : option document → action B) :
  (∀ r, keeps_ids (f r)) → keeps_ids (find_one coll q ≫= f).
Proof. intros Hf r. apply Hf. Qed.

Lemma enroll_keeps_ids (enr : EnrollmentIn.t) : keeps_ids (enroll enr).
Proof.
  unfold enroll. apply find_one_keeps_ids. intros existing.
  destruct (truthy existing); [exact I |].
  apply create_and_fetch_keeps_ids.
Qed.

Lemma submit_keeps_ids (item : SubmissionIn.t) : keeps_ids (submit item).
Proof.
  unfold submit. apply find_one_keeps_ids. intros existing.
  destruct (truthy existing).
  - destruct (existing ≫= (fun d => d !! "_id")); [| exact I].
    split; [apply dump_submission_id | intros r; exact I].
  - apply create_and_fetch_keeps_ids.
Qed.

(** X11: the five writing handlers keep the store well formed: after the
    call every stored document still carries an identifier the store has
    handed out, and no two documents of a collection share one. *)
Theorem writers_keep_ids (s : store) :
  ids_ok s →
  (∀ course, ids_ok (snd (run (create_course course) s)))
  ∧ (∀ lesson, ids_ok (snd (run (create_lesson lesson) s)))
  ∧ (∀ enr, ids_ok (snd (run (enroll enr) s)))
  ∧ (∀ item, ids_ok (snd (run (create_assignment item) s)))
  ∧ (∀ item, ids_ok (snd (run (submit item) s))).
Proof.
  intros Hs. split_and!; intros x; apply keeps_ids_run; try exact Hs.
  - apply create_and_fetch_keeps_ids.
  - apply create_and_fetch_keeps_ids.
  - apply enroll_keeps_ids.
  - apply create_and_fetch_keeps_ids.
  - apply submit_keeps_ids.
Qed.

Lemma writers_keep_ids_witness :
  (∀ course, ids_ok (snd (run (create_course course) graded_store)))
  ∧ (∀ lesson, ids_ok (snd (run (create_lesson lesson) graded_store)))
  ∧ (∀ enr, ids_ok (snd (run (enroll enr) graded_store)))
  ∧ (∀ item, ids_ok (snd (run (create_assignment item) graded_store)))
  ∧ (∀ item, ids_ok (snd (run (submit item) graded_store))).
Proof.
  apply (writers_keep_ids graded_store).
  intros c. apply ids_okb_sound. reflexivity.
Defined.

(** ** Request bodies that validate *)

Ltac given H n :=
  let x := fresh "x" in
  let Hx := fresh "Hx" in
  destruct (H n) as [x Hx]; [simpl; tauto |].

Ltac omitted H n :=
  let Hn := fresh "Hn" in
  assert (Hn := H n); cbn [map fst declared_defaults In] in Hn;
  specialize (Hn ltac:(tauto)).

(** X12: a body that gives every required field as a string and none of the
    optional fields validates, on each of the five routes, to the model
    whose dict holds the given strings and, for each omitted field, the
    default the request model declares. *)
Theorem bare_body_takes_defaults (int_validator : json → checked Z)
        (r : post_route) (body : gmap string json) :
  (∀ name, In name (required_fields r) → ∃ x, body !! name = Some (JString x)) →
  (∀ name, In name (map fst (declared_defaults r)) → body !! name = None) →
  ∃ dump,
    validated_dump int_validator r body = inr dump
    ∧ (∀ name x, In name (required_fields r) →
                 body !! name = Some (JString x) → dump !! name = Some (VStr x))
    ∧ (∀ name v, In (name, v) (declared_defaults r) → dump !! name = Some v).
Proof.
  intros Hreq Hopt.
  destruct r.
  - given Hreq "title". given Hreq "description". given Hreq "instructor_id".
    omitted Hopt "tags". omitted Hopt "cover_image". omitted Hopt "level".
    unfold validated_dump, validate_CourseIn, required_field, default_field.
    rewrite Hx, Hx0, Hx1, Hn, Hn0, Hn1.
    eexists. split; [reflexivity |]. split.
    + intros name v [<- | [<- | [<- | []]]] Hb; rewrite Hb in *;
        simplify_eq; reflexivity.
    + intros name v [[= <- <-] | [[= <- <-] | [[= <- <-] | []]]]; reflexivity.
  - given Hreq "course_id". given Hreq "title".
    omitted Hopt "content". omitted Hopt "video_url". omitted Hopt "order".
    unfold validated_dump, validate_LessonIn, required_field, default_field.
    rewrite Hx, Hx0, Hn, Hn0, Hn1.
    eexists. split; [reflexivity |]. split.
    + intros name v [<- | [<- | []]] Hb; rewrite Hb in *;
        simplify_eq; reflexivity.
    + intros name v [[= <- <-] | [[= <- <-] | [[= <- <-] | []]]]; reflexivity.
  - given Hreq "course_id". given Hreq "user_id". omitted Hopt "role".
    unfold validated_dump, validate_EnrollmentIn, required_field, default_field.
    rewrite Hx, Hx0, Hn.
    eexists. split; [reflexivity |]. split.
    + intros name v [<- | [<- | []]] Hb; rewrite Hb in *;
        simplify_eq; reflexivity.
    + intros name v [[= <- <-] | []]; reflexivity.
  - given Hreq "course_id". given Hreq "title".
    omitted Hopt "description". omitted Hopt "due_date". omitted Hopt "max_points".
    unfold validated_dump, validate_AssignmentIn, required_field, default_field.
    rewrite Hx, Hx0, Hn, Hn0, Hn1.
    eexists. split; [reflexivity |]. split.
    + intros name v [<- | [<- | []]] Hb; rewrite Hb in *;
        simplify_eq; reflexivity.
    + intros name v [[= <- <-] | [[= <- <-] | [[= <- <-] | []]]]; reflexivity.
  - given Hreq "assignment_id". given Hreq "user_id". omitted Hopt "content".
    unfold validated_dump, validate_SubmissionIn, required_field, default_field.
    rewrite Hx, Hx0, Hn.
    eexists. split; [reflexivity |]. split.
    + intros name v [<- | [<- | []]] Hb; rewrite Hb in *;
        simplify_eq; reflexivity.
    + intros name v [[= <- <-] | []]; reflexivity.
Qed.

Lemma bare_body_takes_defaults_witness :
  ∃ dump,
    validated_dump digits_only PostEnrollments roleless_body = inr dump
    ∧ (∀ name x, In name (required_fields PostEnrollments) →
                 roleless_body !! name = Some (JString x) →
                 dump !! name = Some (VStr x))
    ∧ (∀ name v, In (name, v) (declared_defaults PostEnrollments) →
                 dump !! name = Some v).
Proof.
  apply (bare_body_takes_defaults digits_only PostEnrollments roleless_body).
  - intros name [<- | [<- | []]]; eexists; reflexivity.
  - intros name [<- | []]. reflexivity.
Defined.

(** X13: a body field that the request model of the route does not declare
    is ignored: the request with the extra field is the same program as the
    request without it. *)
Theorem undeclared_field_ignored (int_validator : json → checked Z)
        (r : post_route) (body : gmap string json) (name : string) (j : json) :
  ¬ In name (declared_fields r) →
  post int_validator r (<[name := j]> body) = post int_validator r body.
Proof.
  intros Hname.
  assert (Hlook : ∀ k, In k (declared_fields r) → <[name := j]> body !! k = body !! k).
  { intros k Hk. apply lookup_insert_ne. by intros ->. }
  destruct r; unfold post; f_equal;
    unfold validate_CourseIn, validate_LessonIn, validate_EnrollmentIn,
      validate_AssignmentIn, validate_SubmissionIn, required_field, default_field;
    rewrite !Hlook by (cbn; tauto); reflexivity.
Qed.

Lemma undeclared_field_ignored_witness :
  post digits_only PostEnrollments (<["note" := JBool true]> roleless_body)
  = post digits_only PostEnrollments roleless_body.
Proof.
  apply (undeclared_field_ignored digits_only PostEnrollments roleless_body
           "note" (JBool true)).
  cbn. intros [H | [H | [H | []]]]; discriminate.
Defined.

Lemma required_field_mistyped (body : gmap string json) (name : string) (j : json) :
  body !! name = Some j → (∀ x, j ≠ JString x) →
  rejects (mk_error_detail ["body"; name] "string_type")
          (required_field body name str_validator).
Proof.
  intros Hj Hns. unfold required_field. rewrite Hj.
  destruct j; try (eexists; split; [reflexivity | by left]).
  by destruct (Hns s).
Qed.

(** X14: on each of the five creating routes, a required field that holds
    anything but a string is reported as [string_type] at that field; the
    handler does not run and the store is what it was. *)
Theorem mistyped_required_rejected (int_validator : json → checked Z)
        (r : post_route) (body : gmap string json)
        (s : store) (name : string) (j : json) :
  In name (required_fields r) →
  body !! name = Some j →
  (∀ x, j ≠ JString x) →
  ∃ errs,
    run (post int_validator r body) s = (inl (RequestValidationError errs), s)
    ∧ In (mk_error_detail ["body"; name] "string_type") errs.
Proof.
  intros Hin Hj Hns.
  destruct r; simpl in Hin; decompose [or] Hin; try contradiction; subst;
    unfold post; apply run_with_body_rejected;
    unfold validate_CourseIn, validate_LessonIn, validate_EnrollmentIn,
      validate_AssignmentIn, validate_SubmissionIn;
    repeat first
      [ solve [apply rejects_ap_r, (required_field_mistyped _ _ j); assumption]
      | apply rejects_ap_l ].
Qed.

Lemma mistyped_required_rejected_witness :
  ∃ errs,
    run (post digits_only PostCourses mistitled_body) graded_store
    = (inl (RequestValidationError errs), graded_store)
    ∧ In (mk_error_detail ["body"; "title"] "string_type") errs.
Proof.
  apply (mistyped_required_rejected digits_only PostCourses
           mistitled_body graded_store "title" (JNumber "42")).
  - simpl. by left.
  - reflexivity.
  - intros x. discriminate.
Defined.

(** ** Listing courses: the tag filter, and nothing is missed *)

Lemma matches_app (q1 q2 : query) (d : document) :
  matches (q1 ++ q2) d = matches q1 d && matches q2 d.
Proof. unfold matches. apply forallb_app. Qed.

Lemma value_eqb_str (v : value) (t : string) :
  value_eqb v (VStr t) = true → v = VStr t.
Proof.
  destruct v; simpl; try discriminate.
  intros H. apply String.eqb_eq in H. by subst.
Qed.

Lemma eq_matches_str (stored : option value) (t : string) :
  eq_matches stored (VStr t) = true →
  stored = Some (VStr t) ∨ ∃ l, stored = Some (VList l) ∧ In (VStr t) l.
Proof.
  destruct stored as [v|]; [| discriminate].
  destruct v; simpl; try discriminate.
  - intros H. apply String.eqb_eq in H. left. by subst.
  - intros H. right. exists l. split; [done |].
    apply existsb_exists in H as (x & Hin & Hx).
    by rewrite <- (value_eqb_str x t Hx).
Qed.

(** X15: when a tag is given, every course the listing returns has the tag:
    its [tags] field is the tag itself or a list that holds it. *)
Theorem list_courses_by_tag (s : store) (q : option string)
        (tag : string) (limit : Z) :
  from_option literal true q = true →
  tag ≠ "" →
  limit_fits limit = true →
  ∃ views,
    run (list_courses q (Some tag) limit) s
    = (inr views, log_call (CallFind "course") s)
    ∧ ∀ v, In v views →
           ∃ view, v = Some view
                   ∧ (view !! "tags" = Some (VStr tag)
                      ∨ ∃ l, view !! "tags" = Some (VList l) ∧ In (VStr tag) l).
Proof.
  intros Hlit Htag Hfits. unfold list_courses.
  assert (Hfilt : ∃ filt,
             match nonempty q with
             | None => Some []
             | Some pat =>
                 match regex_compile pat with
                 | Some r => Some [("title", Regex r true)]
                 | None => None
                 end
             end = Some filt).
  { destruct q as [[|c q]|]; cbn [nonempty]; [by eexists | | by eexists].
    cbn [from_option] in Hlit. rewrite (regex_compile_literal _ Hlit). by eexists. }
  destruct Hfilt as [filt ->].
  assert (Hne : nonempty (Some tag) = Some tag) by (by destruct tag).
  rewrite Hne, run_find. unfold cursor. rewrite Hfits. cbn [run mret action_ret].
  eexists. split; [reflexivity |].
  intros v Hv. apply in_map_iff in Hv as (d & <- & Hd).
  apply apply_limit_In in Hd. apply filter_In in Hd as [_ Hm].
  rewrite matches_app in Hm. apply andb_true_iff in Hm as [_ Hm].
  unfold matches, cond_matches in Hm. simpl in Hm. rewrite andb_true_r in Hm.
  apply eq_matches_str in Hm as [Hd | (l & Hd & Hin)].
  - destruct (view_of_lookup d "tags" _ Hd) as (view & Hview & Hlook);
      [done | done |].
    exists view. split; [exact Hview | by left].
  - destruct (view_of_lookup d "tags" _ Hd) as (view & Hview & Hlook);
      [done | done |].
    exists view. split; [exact Hview |]. right. by exists l.
Qed.

Lemma list_courses_by_tag_witness :
  ∃ views,
    run (list_courses None (Some "systems") 50) store_tagged
    = (inr views, log_call (CallFind "course") store_tagged)
    ∧ ∀ v, In v views →
           ∃ view, v = Some view
                   ∧ (view !! "tags" = Some (VStr "systems")
                      ∨ ∃ l, view !! "tags" = Some (VList l)
                             ∧ In (VStr "systems") l).
Proof.
  apply (list_courses_by_tag store_tagged None "systems" 50).
  - reflexivity.
  - discriminate.
  - reflexivity.
Defined.

Example list_courses_tagged :
  titles_of (fst (run (list_courses None (Some "systems") 50)
                    store_tagged))
  = Some [Some (VStr "Systems")].
Proof. vm_compute. reflexivity. Qed.

Lemma match_here_complete (cs ts post : list ascii) :
  map to_lower ts = map to_lower cs ++ post →
  match_here true (map Lit cs) ts = true.
Proof.
  revert ts. induction cs as [|c cs IH]; intros ts H; [done |].
  destruct ts as [|t ts]; [discriminate |].
  simpl in H. injection H as Hc Hrest.
  simpl. rewrite Hc, Ascii.eqb_refl. simpl. by apply IH.
Qed.

Lemma regex_search_unfold (ci : bool) (r : list atom) (s : list ascii) :
  regex_search ci r s
  = match_here ci r s
    || match s with
       | [] => false
       | _ :: s' => regex_search ci r s'
       end.
Proof. by destruct s. Qed.

Lemma regex_search_complete (cs ts pre post : list ascii) :
  map to_lower ts = pre ++ map to_lower cs ++ post →
  regex_search true (map Lit cs) ts = true.
Proof.
  revert ts. induction pre as [|p pre IH]; intros ts H.
  - rewrite regex_search_unfold, (match_here_complete cs ts post H). done.
  - destruct ts as [|t ts]; [discriminate |].
    simpl in H. injection H as _ Hrest.
    rewrite regex_search_unfold, (IH ts Hrest). apply orb_true_r.
Qed.

(** X16: with a filter string free of special characters and a limit that
    does not cut the result (zero, or a positive limit of at least the
    number of courses), the listing misses nothing: every stored course
    whose title contains the filter string, case ignored, is among the views
    returned. *)
Theorem list_courses_complete (s : store) (q : string)
        (limit : Z) (d : document) (t : string) :
  literal q = true →
  limit_fits limit = true →
  limit = 0%Z ∨ (Z.of_nat (List.length (coll_docs s "course")) ≤ limit)%Z →
  In d (coll_docs s "course") →
  d !! "title" = Some (VStr t) →
  ci_contains q t →
  ∃ views,
    run (list_courses (Some q) None limit) s
    = (inr views, log_call (CallFind "course") s)
    ∧ In (view_of d) views.
Proof.
  intros Hlit Hfits Hlim Hin Ht (pre & post & Hc). unfold list_courses.
  assert (Hfilt : ∃ filt,
             match nonempty (Some q) with
             | None => Some []
             | Some pat =>
                 match regex_compile pat with
                 | Some r => Some [("title", Regex r true)]
                 | None => None
                 end
             end = Some filt
             ∧ matches filt d = true).
  { destruct q as [|c q]; cbn [nonempty]; [by eexists |].
    rewrite (regex_compile_literal _ Hlit). eexists. split; [reflexivity |].
    unfold matches, cond_matches. simpl. rewrite Ht. simpl.
    rewrite andb_true_r.
    by apply (regex_search_complete (list_ascii_of_string (String c q)) _ pre post). }
  destruct Hfilt as (filt & -> & Hm).
  cbn [nonempty]. rewrite run_find. unfold cursor. rewrite Hfits.
  cbn [run mret action_ret].
  eexists. split; [reflexivity |].
  apply in_map.
  assert (Hfound : In d (List.filter (matches filt) (coll_docs s "course"))).
  { apply filter_In. by split. }
  unfold apply_limit. destruct (Z.eqb_spec limit 0) as [|Hnz]; [exact Hfound |].
  destruct Hlim as [-> | Hlen]; [done |].
  rewrite take_ge; [exact Hfound |].
  pose proof (List.filter_length_le (matches filt) (coll_docs s "course")). lia.
Qed.

Lemma list_courses_complete_witness :
  ∃ views,
    run (list_courses (Some "bc") None 2) small_catalog
    = (inr views, log_call (CallFind "course") small_catalog)
    ∧ In (view_of doc_ABCD) views.
Proof.
  apply (list_courses_complete small_catalog "bc" 2 doc_ABCD "ABCD").
  - reflexivity.
  - reflexivity.
  - right. vm_compute. discriminate.
  - right. by left.
  - reflexivity.
  - exists ["a"%char], ["d"%char]. reflexivity.
Defined.

(** ** The plain listings *)

Lemma listing_selects (coll field x : string) (s : store) :
  ∃ views,
    run (docs ← find coll [(field, Eq (VStr x))] None 0;
             mret (map (fun d => serialize (Some d)) docs)) s
    = (inr views, log_call (CallFind coll) s)
    ∧ selects_by field x (coll_docs s coll) views.
Proof.
  rewrite run_listing. eexists. split; [reflexivity |]. split.
  - intros d Hin Hd. apply in_map. apply filter_In. split; [exact Hin |].
    by apply matches_single.
  - intros v Hv. apply in_map_iff in Hv as (d & <- & Hd).
    apply filter_In in Hd as [Hin Hm].
    exists d. split_and!; [exact Hin | reflexivity |].
    unfold matches, cond_matches in Hm. simpl in Hm. rewrite andb_true_r in Hm.
    by apply eq_matches_str.
Qed.

(** X17: the three plain listings answer with the views of exactly the
    documents selected by their argument: [user_enrollments] by [user_id],
    [list_assignments] by [course_id], [list_submissions] by
    [assignment_id]; there is no limit, so none is left out. *)
Theorem listings_select_by_key (s : store) :
  (∀ user_id, ∃ views,
      run (user_enrollments user_id) s
      = (inr views, log_call (CallFind "enrollment") s)
      ∧ selects_by "user_id" user_id (coll_docs s "enrollment") views)
  ∧ (∀ course_id, ∃ views,
        run (list_assignments course_id) s
        = (inr views, log_call (CallFind "assignment") s)
        ∧ selects_by "course_id" course_id (coll_docs s "assignment") views)
  ∧ (∀ assignment_id, ∃ views,
        run (list_submissions assignment_id) s
        = (inr views, log_call (CallFind "submission") s)
        ∧ selects_by "assignment_id" assignment_id (coll_docs s "submission") views).
Proof. split_and!; intros x; apply listing_selects. Qed.
